(** * restaurant-pipeline: bronze / silver / gold flows

    A shallow embedding of [pipeline/flows/bronze_flow.py],
    [pipeline/flows/silver_flow.py], [pipeline/flows/gold_flow.py] and of the
    driver [run_pipeline.py], with the properties of the pipeline
    specification stated and settled over it.

    Conventions of the embedding:
    - header strings are [string]s of 8-bit characters; the embedding is
      exact on ASCII headers (Python's [str.lower] also maps non-ASCII
      letters, which the model leaves alone);
    - a data frame is a list of column labels and a list of positional rows;
    - float64 values are carried exactly: a finite value is a rational,
      and the infinities and NaN are explicit constructors; the response
      time is computed with float64 rounding ([Float64]), the means of
      the gold flow with exact arithmetic;
    - the files of the data directory are fields of a record, [None] when
      the file does not exist. *)

From Stdlib Require Import Ascii String QArith Qround Qabs Qpower Lqa.
From stdpp Require Import base tactics option list strings gmap sorting.

Local Open Scope string_scope.
Local Open Scope list_scope.

(** ** Field-name normalisation ([_to_snake], bronze_flow.py) *)

Module Snake.

Definition code (c : ascii) : nat := nat_of_ascii c.

(** Character classes of the four regular expressions. *)
Definition is_sep (c : ascii) : bool := Ascii.eqb c " "%char || Ascii.eqb c "-"%char.
Definition is_us (c : ascii) : bool := Ascii.eqb c "_"%char.
Definition is_upper (c : ascii) : bool := (65 <=? code c)%nat && (code c <=? 90)%nat.
Definition is_lower (c : ascii) : bool := (97 <=? code c)%nat && (code c <=? 122)%nat.
Definition is_digit (c : ascii) : bool := (48 <=? code c)%nat && (code c <=? 57)%nat.
(** [.] without DOTALL matches everything but the line feed. *)
Definition is_dot (c : ascii) : bool := negb (Ascii.eqb c "010"%char).

(** [re.sub(r"[ \-]+", "_", s)]: every maximal run of spaces and hyphens
    becomes one underscore.  [in_run] tells that the previous character
    belonged to the run being replaced. *)
Fixpoint sub_seps (in_run : bool) (s : list ascii) : list ascii :=
  match s with
  | [] => []
  | c :: t =>
      if is_sep c
      then (if in_run then sub_seps true t else "_"%char :: sub_seps true t)
      else c :: sub_seps false t
  end.

(** [re.sub(r"(.)([A-Z][a-z]+)", r"\1_\2", s)].  The scan is leftmost and
    non-overlapping: a match at [c] needs an upper-case letter and a
    lower-case letter right after it; group 2 then takes the upper-case
    letter and the whole run of lower-case letters (greedy [+]), and the
    scan resumes after that run. *)
Inductive word_state := Scan | CopyUpper | CopyLower.

Definition starts_word (t : list ascii) : bool :=
  match t with
  | u :: l :: _ => is_upper u && is_lower l
  | _ => false
  end.

Fixpoint sub_words (st : word_state) (s : list ascii) : list ascii :=
  match s with
  | [] => []
  | c :: t =>
      match st with
      | CopyUpper => c :: sub_words CopyLower t
      | CopyLower =>
          if is_lower c then c :: sub_words CopyLower t
          else if is_dot c && starts_word t
               then c :: "_"%char :: sub_words CopyUpper t
               else c :: sub_words Scan t
      | Scan =>
          if is_dot c && starts_word t
          then c :: "_"%char :: sub_words CopyUpper t
          else c :: sub_words Scan t
      end
  end.

(** [re.sub(r"([a-z0-9])([A-Z])", r"\1_\2", s)]: both characters of a
    match are consumed. *)
Fixpoint sub_humps (s : list ascii) : list ascii :=
  match s with
  | [] => []
  | c :: t =>
      match t with
      | u :: r =>
          if (is_lower c || is_digit c) && is_upper u
          then c :: "_"%char :: u :: sub_humps r
          else c :: sub_humps t
      | [] => [c]
      end
  end.

(** [re.sub(r"__+", "_", s)]: a run of two or more underscores becomes
    one; a single underscore is rewritten to itself.  [prev] tells that
    the previous character was an underscore. *)
Fixpoint sub_unders (prev : bool) (s : list ascii) : list ascii :=
  match s with
  | [] => []
  | c :: t =>
      if is_us c
      then (if prev then sub_unders true t else c :: sub_unders true t)
      else c :: sub_unders false t
  end.

(** [s.lstrip(chars)], [s.rstrip(chars)] and [s.strip(chars)], with the
    character set given as a predicate. *)
Fixpoint lstrip (p : ascii → bool) (s : list ascii) : list ascii :=
  match s with
  | [] => []
  | c :: t => if p c then lstrip p t else s
  end.

Fixpoint rstrip (p : ascii → bool) (s : list ascii) : list ascii :=
  match s with
  | [] => []
  | c :: t =>
      match rstrip p t with
      | [] => if p c then [] else [c]
      | r => c :: r
      end
  end.

Definition strip (p : ascii → bool) (s : list ascii) : list ascii :=
  rstrip p (lstrip p s).

(** [s.lower()] on ASCII. *)
Definition lower_char (c : ascii) : ascii :=
  if is_upper c then ascii_of_nat (code c + 32) else c.

Definition lower (s : list ascii) : list ascii := map lower_char s.

Definition snake_chars (s : list ascii) : list ascii :=
  let s := sub_seps false s in
  let s := sub_words Scan s in
  let s := sub_humps s in
  let s := sub_unders false s in
  lower (strip is_us s).

(** [_to_snake(s)] for a [str] argument. *)
Definition _to_snake (s : string) : string :=
  string_of_list_ascii (snake_chars (list_ascii_of_string s)).

(** [s = s or ""] first turns [None] into the empty string. *)
Definition _to_snake_opt (s : option string) : string :=
  _to_snake (default "" s).

(** *** Predicates on normalised names *)

(** A string [s] is free of the class [p]. *)
Definition free (p : ascii → bool) (s : list ascii) : Prop :=
  Forall (λ c, p c = false) s.

(** No two adjacent underscores; [prev] tells that an underscore comes
    right before [s]. *)
Fixpoint no_dbl (prev : bool) (s : list ascii) : bool :=
  match s with
  | [] => true
  | c :: t => if is_us c then negb prev && no_dbl true t else no_dbl false t
  end.

(** The first character is outside [p]. *)
Definition head_ok (p : ascii → bool) (s : list ascii) : Prop :=
  match s with
  | [] => True
  | c :: _ => p c = false
  end.

(** What [snake_chars] produces: no separator, no upper-case letter, no
    doubled underscore, no underscore at either end. *)
Record normal (s : list ascii) : Prop := {
  normal_sep : free is_sep s;
  normal_upper : free is_upper s;
  normal_dbl : no_dbl false s = true;
  normal_head : head_ok is_us s;
  normal_last : rstrip is_us s = s
}.

End Snake.

(** ** Values and data frames (pandas) *)

Module Frame.

(** A scalar of a column: NaN / None / NaT is [Null]; numbers are finite
    and kept in lowest terms; a timestamp is its nanoseconds since the
    epoch, in UTC. *)
Inductive scalar :=
  | Null
  | Str (s : string)
  | Num (q : Q)
  | Bool (b : bool)
  | Time (ns : Z).

(** A value of a frame read from the raw files: a scalar, or a nested
    JSON object or array of the event log. *)
#[warnings="-register-all"] Inductive pyval :=
  | Atom (a : scalar)
  | Dict (kv : list (string * pyval))
  | Arr (l : list pyval).

Class Nullable (C : Type) := null : C.
Global Instance scalar_null : Nullable scalar := Null.
Global Instance pyval_null : Nullable pyval := Atom Null.

Record DataFrame (C : Type) := mkDF {
  columns : list string;
  rows : list (list C)
}.
Global Arguments mkDF {C} _ _.
Global Arguments columns {C} _.
Global Arguments rows {C} _.

Section Ops.
Context {C : Type} `{Nullable C}.

(** [pd.DataFrame()] *)
Definition empty_frame : DataFrame C := mkDF [] [].

(** [len(df)] *)
Definition nrows (df : DataFrame C) : nat := length (rows df).

(** [df.empty]: some axis has length 0. *)
Definition is_empty (df : DataFrame C) : bool :=
  bool_decide (columns df = []) || bool_decide (rows df = []).

(** [c in df.columns] *)
Definition has_column (c : string) (df : DataFrame C) : bool :=
  bool_decide (c ∈ columns df).

(** Position of the first column labelled [c]. *)
Definition col_index (c : string) (cols : list string) : option nat :=
  fst <$> list_find (λ x, x = c) cols.

(** The cell of row [r] under label [c]; missing labels read as null. *)
Definition get_cell (cols : list string) (r : list C) (c : string) : C :=
  default null (col_index c cols ≫= λ i, r !! i).

(** [df[c]] *)
Definition column (df : DataFrame C) (c : string) : list C :=
  map (λ r, get_cell (columns df) r c) (rows df).

(** [df[c] = vals]: overwrite the column when the label exists, append
    a new last column otherwise. *)
Definition put_label (c : string) (cols : list string) : list string :=
  match col_index c cols with
  | Some _ => cols
  | None => cols ++ [c]
  end.

Definition put_cell (cols : list string) (c : string) (r : list C) (v : C)
  : list C :=
  match col_index c cols with
  | Some i => <[i:=v]> r
  | None => r ++ [v]
  end.

Definition set_column (df : DataFrame C) (c : string) (vals : list C)
  : DataFrame C :=
  mkDF (put_label c (columns df))
       (zip_with (put_cell (columns df) c) (rows df) vals).

(** [df[c] = v] with a scalar [v], broadcast to every row. *)
Definition set_column_const (df : DataFrame C) (c : string) (v : C)
  : DataFrame C :=
  set_column df c (replicate (nrows df) v).

(** [df[mask]] with the mask computed row by row. *)
Definition filter_rows (keep : list C → bool) (df : DataFrame C)
  : DataFrame C :=
  mkDF (columns df) (List.filter keep (rows df)).

(** Column labels of [pd.concat(dfs, sort=False)]: the union of the
    labels in order of first appearance. *)
Definition union_columns (acc new : list string) : list string :=
  acc ++ filter (λ c, c ∉ acc) new.

Definition concat_columns (dfs : list (DataFrame C)) : list string :=
  fold_left (λ acc df, union_columns acc (columns df)) dfs [].

(** A row re-indexed on the labels [new]: null where it has no value. *)
Definition reindex (old new : list string) (r : list C) : list C :=
  map (get_cell old r) new.

(** [pd.concat(dfs, ignore_index=True, sort=False)]: every row is
    re-indexed on the union of the labels.  The labels of each frame are
    taken to be distinct, which pandas requires to re-index. *)
Definition concat (dfs : list (DataFrame C)) : DataFrame C :=
  let cols := concat_columns dfs in
  mkDF cols (dfs ≫= λ df, map (reindex (columns df) cols) (rows df)).

(** A frame is rectangular: every row has one cell per label. *)
Definition wf (df : DataFrame C) : Prop :=
  Forall (λ r, length r = length (columns df)) (rows df).

(** The set of column labels. *)
Definition column_set (df : DataFrame C) : gset string :=
  list_to_set (columns df).

End Ops.

End Frame.

(** ** Bronze flow (bronze_flow.py) *)

Module Bronze.
Import Snake Frame.

(** [normalize_df_columns]: the copy only renames the labels. *)
Definition normalize_df_columns {C} (df : DataFrame C) : DataFrame C :=
  mkDF (map _to_snake (columns df)) (rows df).

(** What reading a raw file gives: the path does not exist, the read
    raises, or a frame is returned. *)
Inductive source (A : Type) :=
  | Missing
  | Unreadable
  | Loaded (df : A).
Global Arguments Missing {A}.
Global Arguments Unreadable {A}.
Global Arguments Loaded {A} _.

(** The raw data directory: [data/raw_csvs/<name>] by file name, and
    [data/support_tickets.jsonl]. *)
Record RawData := mkRaw {
  raw_csv : string → source (DataFrame pyval);
  raw_jsonl : source (DataFrame pyval)
}.

Definition csv_names : list string :=
  ["customers.csv"; "orders.csv"; "stores.csv"; "products.csv";
   "items.csv"; "supplies.csv"].

(** [fname.replace(".csv", "")] *)
Fixpoint remove_csv (s : string) : string :=
  match s with
  | String "." (String "c" (String "s" (String "v" rest))) => remove_csv rest
  | String c t => String c (remove_csv t)
  | EmptyString => EmptyString
  end.

(** One iteration of the loop over [csv_names]: the frames appended to
    [csv_dfs]. *)
Definition read_csv_source (src : string → source (DataFrame pyval))
    (fname : string) : list (DataFrame pyval) :=
  match src fname with
  | Loaded df =>
      let df := normalize_df_columns df in
      [set_column_const df "_src" (Atom (Str (remove_csv fname)))]
  | Unreadable => []
  | Missing => []
  end.

Definition csv_dfs_of (src : string → source (DataFrame pyval))
    (names : list string) : list (DataFrame pyval) :=
  names ≫= read_csv_source src.

Definition combine_csvs (csv_dfs : list (DataFrame pyval)) : DataFrame pyval :=
  match csv_dfs with
  | [] => empty_frame
  | _ => concat csv_dfs
  end.

(** [x.get("score") if isinstance(x, dict) else None] *)
Definition score_of (x : pyval) : pyval :=
  match x with
  | Dict kv => default (Atom Null) (snd <$> List.find (λ p, String.eqb (fst p) "score") kv)
  | _ => Atom Null
  end.

Definition read_jsonl (j : source (DataFrame pyval)) : DataFrame pyval :=
  match j with
  | Loaded df =>
      let df := normalize_df_columns df in
      if has_column "sentiment" df
      then set_column df "sentiment_score" (map score_of (column df "sentiment"))
      else df
  | Unreadable => empty_frame
  | Missing => empty_frame
  end.

(** "Union by columns": the three-way branch on [.empty]. *)
Definition union_by_columns (df_csv_combined df_json : DataFrame pyval)
    : DataFrame pyval :=
  if negb (is_empty df_csv_combined) && negb (is_empty df_json)
  then concat [df_csv_combined; df_json]
  else if negb (is_empty df_csv_combined) then df_csv_combined
  else df_json.

(** The frame written to [data/bronze/bronze.csv], from the frames
    collected in [csv_dfs] and the event-log frame. *)
Definition bronze_combined (csv_dfs : list (DataFrame pyval))
    (df_json : DataFrame pyval) : DataFrame pyval :=
  let df_csv_combined := combine_csvs csv_dfs in
  normalize_df_columns (union_by_columns df_csv_combined df_json).

(** The same for the candidate names [names], read in that order. *)
Definition bronze_table_of (names : list string) (raw : RawData)
    : DataFrame pyval :=
  bronze_combined (csv_dfs_of (raw_csv raw) names) (read_jsonl (raw_jsonl raw)).

Definition bronze_table (raw : RawData) : DataFrame pyval :=
  bronze_table_of csv_names raw.

(** A run where only [customers.csv] exists, with one column and one row. *)
Definition customers_only : RawData :=
  mkRaw (λ n, if String.eqb n "customers.csv"
              then Loaded (mkDF ["id"] [[Atom (Str "1")]])
              else Missing)
        Missing.

(** Two tabular sources and no event log: three customers, two orders. *)
Definition two_sources : RawData :=
  mkRaw (λ n,
          if String.eqb n "customers.csv"
          then Loaded (mkDF ["Customer ID"; "Name"]
                         [[Atom (Str "1"); Atom (Str "Ann")];
                          [Atom (Str "2"); Atom (Str "Bob")];
                          [Atom (Str "3"); Atom (Str "Cy")]])
          else if String.eqb n "orders.csv"
          then Loaded (mkDF ["orderId"; "customerId"]
                         [[Atom (Str "10"); Atom (Str "1")];
                          [Atom (Str "11"); Atom (Str "3")]])
          else Missing)
        Missing.

End Bronze.

(** ** Library functions of pandas and Python left abstract

    The flows call these on values; the embedding fixes their types and
    nothing else about them. *)

Module Lib.
Import Frame.

(** float64: a finite value, the infinities, NaN. *)
Inductive pyfloat :=
  | Fin (q : Q)
  | PosInf
  | NegInf
  | NaN.

Class Pandas := {
  (** the text [to_csv] writes for a raw value that is not a string *)
  csv_text : pyval → string;
  (** [pd.to_datetime(col, errors="coerce", utc=True)] on one value of the
      column [col] (the format is inferred from the column): nanoseconds
      since the epoch, [None] for NaT *)
  to_datetime : list scalar → scalar → option Z;
  (** the value type inference of [pd.read_csv] gives a non-null cell of
      a column *)
  infer : list scalar → scalar → scalar;
  (** [float(s)] on a string; [None] when it raises [ValueError] *)
  parse_float : string → option pyfloat;
  (** the order in which [groupby] sorts the group keys *)
  key_leb : scalar → scalar → bool
}.

(** An instance for closed examples: two timestamps and a few decimal
    literals are recognised, inference keeps a cell as it is, and keys
    are ordered as strings. *)
Definition example_pandas : Pandas := {|
  csv_text := λ _, "?";
  to_datetime := λ _ c,
    match c with
    | Str "1970-01-01T00:00:00Z" => Some 0%Z
    | Str "1970-01-01T02:00:00Z" => Some 7200000000000%Z
    | _ => None
    end;
  infer := λ _ c, c;
  parse_float := λ s,
    if String.eqb s "0.5" then Some (Fin (1 # 2))
    else if String.eqb s "-0.5" then Some (Fin (- 1 # 2))
    else if String.eqb s "0.0" then Some (Fin 0)
    else if String.eqb s "0.9" then Some (Fin (9 # 10))
    else None;
  key_leb := λ a b,
    match a, b with
    | Str x, Str y => String.leb x y
    | _, _ => true
    end
|}.

Inductive exn := EmptyDataError.

Inductive outcome (A : Type) :=
  | Ok (a : A)
  | Raise (e : exn).
Global Arguments Ok {A} _.
Global Arguments Raise {A} _.

End Lib.

(** ** float64 arithmetic

    A finite float64 is the rational it stands for.  An operation gives
    the exact result rounded to the nearest number with a significand of
    53 bits, ties to the even significand (IEEE 754, round to nearest
    even).  The exponent is not bounded here: the quotients of the silver
    flow, made from 64-bit integers, neither overflow nor fall in the
    subnormal range. *)

Module Float64.

(** Nearest integer, ties to the even one. *)
Definition rint (x : Q) : Z :=
  let f := Qfloor x in
  match Qcompare (x - inject_Z f)%Q (1 # 2) with
  | Lt => f
  | Gt => (f + 1)%Z
  | Eq => if Z.even f then f else (f + 1)%Z
  end.

(** The exponent of [x], not 0: the [k] with [2^k <= |x| < 2^(k+1)]. *)
Definition ilog2 (x : Q) : Z :=
  let k := (Z.log2 (Z.abs (Qnum x)) - Z.log2 (Zpos (Qden x)))%Z in
  if Qle_bool (2 ^ k) (Qabs x) then k else (k - 1)%Z.

(** Rounding to float64: the significand [x / 2^e], between [2^52] and
    [2^53] in absolute value, is rounded to an integer. *)
Definition round64 (x : Q) : Q :=
  let x := Qred x in
  if Qeq_bool x 0 then 0%Q
  else let e := (ilog2 x - 52)%Z in
       Qred (inject_Z (rint (x / 2 ^ e)) * 2 ^ e).

(** An int64 converted to float64. *)
Definition of_int (n : Z) : Q := round64 (inject_Z n).

(** [x / y] on float64, [y] not 0. *)
Definition div (x y : Q) : Q := round64 (x / y).

End Float64.

(** ** Silver flow (silver_flow.py) *)

Module Silver.
Import Snake Frame Lib.

(** Strings [pd.read_csv] reads as NaN by default. *)
Definition na_values : list string :=
  [""; "#N/A"; "#N/A N/A"; "#NA"; "-1.#IND"; "-1.#QNAN"; "-NaN"; "-nan";
   "1.#IND"; "1.#QNAN"; "<NA>"; "N/A"; "NA"; "NULL"; "NaN"; "None"; "n/a";
   "nan"; "null"].

Definition read_str (s : string) : scalar :=
  if bool_decide (s ∈ na_values) then Null else Str s.

(** [str.isspace] on ASCII, the characters [str.strip()] removes. *)
Definition is_space (c : ascii) : bool :=
  let n := code c in
  ((9 <=? n)%nat && (n <=? 13)%nat) || ((28 <=? n)%nat && (n <=? 32)%nat).

Definition strip_ws (s : string) : string :=
  string_of_list_ascii (strip is_space (list_ascii_of_string s)).

Definition timestamp_columns : list string :=
  ["first_response_at"; "resolved_at"; "updated_at"; "created_at";
   "order_timestamp"; "last_delivery_at"; "sla_due_at"].

(** [(resolved - first).dt.total_seconds() / 3600.0] on one row: NaT on
    either side gives NaN.  The difference is a number of nanoseconds
    held in an int64; [total_seconds()] converts it to float64 and
    divides by [10**9] (pandas 2), and the result is divided by
    [3600.0]. *)
Definition hours (ns : Z) : Q :=
  Float64.div (Float64.div (Float64.of_int ns) 1000000000) 3600.

Definition hours_between (resolved first : scalar) : scalar :=
  match resolved, first with
  | Time r, Time f => Num (hours (r - f))
  | _, _ => Null
  end.

(** [df["ticket_id"].notna() & (df["ticket_id"].astype(str).str.strip() != "")]
    on one row. *)
Definition keeps_ticket (cols : list string) (r : list scalar) : bool :=
  match get_cell cols r "ticket_id" with
  | Null => false
  | Str s => negb (String.eqb (strip_ws s) "")
  | _ => true
  end.

(** A bronze table with two tickets, the second never answered. *)
Definition two_tickets : DataFrame pyval :=
  mkDF ["ticket_id"; "first_response_at"; "resolved_at"]
    [[Atom (Str "T1"); Atom (Str "1970-01-01T00:00:00Z");
      Atom (Str "1970-01-01T02:00:00Z")];
     [Atom (Str "T2"); Atom Null; Atom (Str "1970-01-01T02:00:00Z")]].

(** The value of the derived column on a row of the enriched frame. *)
Definition response_of (both : bool) (cols : list string) (r : list scalar)
    : scalar :=
  if both
  then hours_between (get_cell cols r "resolved_at")
                     (get_cell cols r "first_response_at")
  else Null.

Section Flow.
Context `{Pandas}.

(** One cell through [to_csv] and [pd.read_csv(..., dtype=str)]. *)
Definition csv_cell (v : pyval) : scalar :=
  match v with
  | Atom Null => Null
  | Atom (Str s) => read_str s
  | _ => read_str (csv_text v)
  end.

(** [pd.read_csv(BRONZE_FILE, dtype=str)] of the file [to_csv] wrote: a
    frame without columns is a file without a header line.  The labels
    are read back as written, which is what [pd.read_csv] does with
    labels that are distinct and not empty (it renames a repeated label
    and an empty one). *)
Definition read_bronze (f : DataFrame pyval) : outcome (DataFrame scalar) :=
  match columns f with
  | [] => Raise EmptyDataError
  | _ => Ok (mkDF (columns f) (map (map csv_cell) (rows f)))
  end.

Definition parse_cell (col : list scalar) (c : scalar) : scalar :=
  match c with
  | Null => Null
  | _ =>
      match to_datetime col c with
      | Some ns => Time ns
      | None => Null
      end
  end.

(** One iteration of the loop over the timestamp columns. *)
Definition parse_column (df : DataFrame scalar) (col : string)
    : DataFrame scalar :=
  if has_column col df
  then set_column df col (map (parse_cell (column df col)) (column df col))
  else df.

Definition parse_timestamps (df : DataFrame scalar) : DataFrame scalar :=
  fold_left parse_column timestamp_columns df.

Definition add_response_time (df : DataFrame scalar) : DataFrame scalar :=
  if has_column "resolved_at" df && has_column "first_response_at" df
  then set_column df "response_time_hours"
         (zip_with hours_between (column df "resolved_at")
                                 (column df "first_response_at"))
  else set_column_const df "response_time_hours" Null.

Definition filter_ticket_id (df : DataFrame scalar) : DataFrame scalar :=
  if has_column "ticket_id" df
  then filter_rows (keeps_ticket (columns df)) df
  else df.

(** The frame written to [data/silver/silver.csv]. *)
Definition silver_table (df : DataFrame scalar) : DataFrame scalar :=
  filter_ticket_id (add_response_time (parse_timestamps df)).

(** [silver_flow()] given the bronze file: [Ok None] is the logged
    early return that writes nothing. *)
Definition silver_flow (bronze_file : option (DataFrame pyval))
    : outcome (option (DataFrame scalar)) :=
  match bronze_file with
  | None => Ok None
  | Some f =>
      match read_bronze f with
      | Raise e => Raise e
      | Ok df => Ok (Some (silver_table df))
      end
  end.

End Flow.

End Silver.

(** ** Gold flow (gold_flow.py) *)

Module Gold.
Import Frame Lib.

(** *** float64 values

    Comparisons, truth value and the handling of NaN and the infinities
    are those of float64.  The sum and the quotient of a mean and the
    rounding to four decimals are computed exactly on finite values,
    without the rounding error of float64. *)

Definition fle (a b : pyfloat) : bool :=
  match a, b with
  | NaN, _ | _, NaN => false
  | NegInf, _ | _, PosInf => true
  | PosInf, _ | _, NegInf => false
  | Fin x, Fin y => Qle_bool x y
  end.

Definition fadd (a b : pyfloat) : pyfloat :=
  match a, b with
  | NaN, _ | _, NaN => NaN
  | PosInf, NegInf | NegInf, PosInf => NaN
  | PosInf, _ | _, PosInf => PosInf
  | NegInf, _ | _, NegInf => NegInf
  | Fin x, Fin y => Fin (Qred (x + y))
  end.

(** Division by a positive count. *)
Definition fdiv_count (a : pyfloat) (n : nat) : pyfloat :=
  match a with
  | Fin x => Fin (Qred (x / inject_Z (Z.of_nat n)))
  | other => other
  end.

Definition is_nan (a : pyfloat) : bool :=
  match a with NaN => true | _ => false end.

(** [bool(x)]: only zero is false; NaN is true. *)
Definition truthy (a : pyfloat) : bool :=
  match a with
  | Fin x => negb (Qeq_bool x 0)
  | _ => true
  end.

(** [x or y] *)
Definition py_or (x y : pyfloat) : pyfloat := if truthy x then x else y.

(** Nearest integer, ties to the even one. *)
Definition round_half_even (x : Q) : Z :=
  let f := Qfloor x in
  match Qcompare (x - inject_Z f)%Q (1 # 2) with
  | Lt => f
  | Gt => (f + 1)%Z
  | Eq => if Z.even f then f else (f + 1)%Z
  end.

(** [round(x, 4)]: NaN and the infinities round to themselves. *)
Definition round4 (a : pyfloat) : pyfloat :=
  match a with
  | Fin x => Fin (Qred (round_half_even (x * 10000) # 10000))
  | other => other
  end.

(** *** Grouping *)

Global Instance Q_eq_dec : EqDecision Q.
Proof. solve_decision. Defined.
Global Instance scalar_eq_dec : EqDecision scalar.
Proof. solve_decision. Defined.
Global Instance pyfloat_eq_dec : EqDecision pyfloat.
Proof. solve_decision. Defined.

Definition notna (c : scalar) : bool := negb (bool_decide (c = Null)).

(** Mean of the values that are not NaN; NaN when there is none. *)
Definition mean_skipna (vals : list pyfloat) : pyfloat :=
  match List.filter (λ v, negb (is_nan v)) vals with
  | [] => NaN
  | present => fdiv_count (foldr fadd (Fin 0) present) (length present)
  end.

(** An aggregate table: the two column labels and the rows. *)
Record Table (V : Type) := mkTable {
  key_label : string;
  value_label : string;
  entries : list (scalar * V)
}.
Global Arguments mkTable {V} _ _ _.
Global Arguments key_label {V} _.
Global Arguments value_label {V} _.
Global Arguments entries {V} _.

(** A value of the summary table: [int(...)] or [float(...)]. *)
Inductive value :=
  | IntV (n : Z)
  | FloatV (f : pyfloat).

Record SummaryRow := mkRow {
  metric : string;
  key : scalar;
  val : value
}.

(** The argument of [sentiment_label]. *)
Inductive pyarg :=
  | AFloat (f : pyfloat)
  | AStr (s : string)
  | ANone.

Record GoldFiles := mkGold {
  tickets_per_agent : Table nat;
  tickets_by_status : Table nat;
  tickets_by_sentiment : Table nat;
  avg_response_time_per_agent : Table pyfloat;
  gold_summary : list SummaryRow
}.

Definition labels : list string := ["positive"; "neutral"; "negative"].

(** Sum of the counts of an aggregate table. *)
Definition total (t : Table nat) : nat := sum_list (map snd (entries t)).

(** A silver table with one ticket of agent [a1] that has no response
    time. *)
Definition unanswered : DataFrame scalar :=
  mkDF ["agent_id"; "response_time_hours"] [[Str "a1"; Null]].

Section Flow.
Context `{Pandas}.

(** [pd.read_csv(SILVER_FILE)]: empty fields are NaN; every other cell
    gets the value inferred for its column. *)
Definition read_cell (col : list scalar) (c : scalar) : scalar :=
  match c with
  | Null => Null
  | _ => infer col c
  end.

Definition nth_column (f : DataFrame scalar) (j : nat) : list scalar :=
  map (λ r, default Null (r !! j)) (rows f).

Definition read_silver (f : DataFrame scalar) : outcome (DataFrame scalar) :=
  match columns f with
  | [] => Raise EmptyDataError
  | _ => Ok (mkDF (columns f)
               (map (λ r, imap (λ j c, read_cell (nth_column f j) c) r) (rows f)))
  end.

(** Group keys: the distinct values, sorted. *)
Fixpoint insert_key (k : scalar) (l : list scalar) : list scalar :=
  match l with
  | [] => [k]
  | x :: t => if key_leb k x then k :: l else x :: insert_key k t
  end.

Definition sort_keys (l : list scalar) : list scalar := foldr insert_key [] l.

Definition group_keys (dropna : bool) (keys : list scalar) : list scalar :=
  sort_keys (remove_dups (if dropna then List.filter notna keys else keys)).

Definition count_key (k : scalar) (keys : list scalar) : nat :=
  length (List.filter (λ x, bool_decide (x = k)) keys).

(** [df.groupby(col, dropna=...).size()] on the key column. *)
Definition groupby_size (dropna : bool) (keys : list scalar)
    : list (scalar * nat) :=
  map (λ k, (k, count_key k keys)) (group_keys dropna keys).

(** [df.groupby(col, dropna=True)[valcol].mean()] *)
Definition group_values (k : scalar) (keys : list scalar)
    (vals : list pyfloat) : list pyfloat :=
  snd <$> List.filter (λ p, bool_decide (fst p = k)) (zip keys vals).

Definition groupby_mean (keys : list scalar) (vals : list pyfloat)
    : list (scalar * pyfloat) :=
  map (λ k, (k, mean_skipna (group_values k keys vals))) (group_keys true keys).

(** [pd.to_numeric(x, errors="coerce")] on one value. *)
Definition to_numeric (c : scalar) : pyfloat :=
  match c with
  | Null => NaN
  | Num q => Fin q
  | Bool b => Fin (if b then 1 else 0)
  | Str s => default NaN (parse_float s)
  | Time ns => Fin (inject_Z ns)
  end.

(** [float(v)]; [None] when it raises. *)
Definition to_float (v : pyarg) : option pyfloat :=
  match v with
  | AFloat f => Some f
  | AStr s => parse_float s
  | ANone => None
  end.

Definition sentiment_label (v : pyarg) : string :=
  match to_float v with
  | None => "neutral"
  | Some v =>
      if fle (Fin (1 # 2)) v then "positive"
      else if fle v (Fin (- 1 # 2)) then "negative"
      else "neutral"
  end.

(** [df["sentiment_score_val"]].  A cell read from a CSV file is never
    a [dict], so the second branch yields NaN on every row. *)
Definition sentiment_score_val (df : DataFrame scalar) : list pyfloat :=
  if has_column "sentiment_score" df
  then map to_numeric (column df "sentiment_score")
  else if has_column "sentiment" df
       then map (λ _, NaN) (column df "sentiment")
       else replicate (nrows df) NaN.

(** [df["sentiment_label"]] *)
Definition sentiment_labels (df : DataFrame scalar) : list string :=
  map (λ v, sentiment_label (AFloat v)) (sentiment_score_val df).

Definition tpa_of (df : DataFrame scalar) : Table nat :=
  mkTable "agent_id" "tickets_count"
    (if has_column "agent_id" df
     then groupby_size true (column df "agent_id")
     else []).

Definition tbs_of (df : DataFrame scalar) : Table nat :=
  mkTable "status" "tickets_count"
    (if has_column "status" df
     then groupby_size true (column df "status")
     else []).

Definition tbsent_of (df : DataFrame scalar) : Table nat :=
  mkTable "sentiment_label" "count"
    (groupby_size false (map Str (sentiment_labels df))).

Definition avg_resp_of (df : DataFrame scalar) : Table pyfloat :=
  mkTable "agent_id" "avg_response_time_hours"
    (if has_column "agent_id" df && has_column "response_time_hours" df
     then groupby_mean (column df "agent_id")
            (map to_numeric (column df "response_time_hours"))
     else []).

(** [float(round(m or 0.0, 4))] *)
Definition summary_avg (m : pyfloat) : pyfloat := round4 (py_or m (Fin 0)).

Definition count_rows (name : string) (t : Table nat) : list SummaryRow :=
  map (λ r, mkRow name (fst r) (IntV (Z.of_nat (snd r)))) (entries t).

Definition avg_rows (name : string) (t : Table pyfloat) : list SummaryRow :=
  map (λ r, mkRow name (fst r) (FloatV (summary_avg (snd r)))) (entries t).

(** The four loops over [iterrows()] that fill [rows]. *)
Definition summary_rows (tpa tbs tbsent : Table nat) (avg_resp : Table pyfloat)
    : list SummaryRow :=
  count_rows "tickets_per_agent" tpa
  ++ count_rows "tickets_by_status" tbs
  ++ count_rows "tickets_by_sentiment" tbsent
  ++ avg_rows "avg_response_time_per_agent" avg_resp.

Definition gold_tables (df : DataFrame scalar) : GoldFiles :=
  let tpa := tpa_of df in
  let tbs := tbs_of df in
  let tbsent := tbsent_of df in
  let avg_resp := avg_resp_of df in
  mkGold tpa tbs tbsent avg_resp (summary_rows tpa tbs tbsent avg_resp).

(** [gold_flow()] given the silver file. *)
Definition gold_flow (silver_file : option (DataFrame scalar))
    : outcome (option GoldFiles) :=
  match silver_file with
  | None => Ok None
  | Some f =>
      match read_silver f with
      | Raise e => Raise e
      | Ok df => Ok (Some (gold_tables df))
      end
  end.

End Flow.

End Gold.

(** ** The driver (run_pipeline.py) *)

Module Pipeline.
Import Frame Lib.

(** The data directory. *)
Record Store := mkStore {
  raw : Bronze.RawData;
  bronze_file : option (DataFrame pyval);
  silver_file : option (DataFrame scalar);
  gold_files : option Gold.GoldFiles
}.

(** How a run ends: the driver returns, or an exception leaves a flow
    and, the driver having no handler around the flows, the process. *)
Inductive run :=
  | Finished (st : Store)
  | Crashed (e : exn) (st : Store).

Section Flows.
Context `{Pandas}.

Definition bronze_step (st : Store) : Store :=
  mkStore (raw st) (Some (Bronze.bronze_table (raw st)))
          (silver_file st) (gold_files st).

Definition silver_step (st : Store) : run :=
  match Silver.silver_flow (bronze_file st) with
  | Raise e => Crashed e st
  | Ok None => Finished st
  | Ok (Some out) =>
      Finished (mkStore (raw st) (bronze_file st) (Some out) (gold_files st))
  end.

Definition gold_step (st : Store) : run :=
  match Gold.gold_flow (silver_file st) with
  | Raise e => Crashed e st
  | Ok None => Finished st
  | Ok (Some out) =>
      Finished (mkStore (raw st) (bronze_file st) (silver_file st) (Some out))
  end.

(** [run_all()]: the three flows in sequence. *)
Definition run_all (st : Store) : run :=
  match silver_step (bronze_step st) with
  | Crashed e st' => Crashed e st'
  | Finished st' => gold_step st'
  end.

End Flows.

(** A data directory with no file at all. *)
Definition no_raw : Bronze.RawData :=
  Bronze.mkRaw (λ _, Bronze.Missing) Bronze.Missing.

Definition fresh_store (r : Bronze.RawData) : Store := mkStore r None None None.

End Pipeline.

(** ** The sentiment chart of the driver ([plot_sentiment], run_pipeline.py) *)

Module Report.

(** The table read by [load_gold_tables]: label and integer count of each
    row of [tickets_by_sentiment.csv]. *)
Definition order : list string := ["positive"; "neutral"; "negative"].

(** [sizes.sum()] *)
Definition total_count (sent : list (string * Z)) : Z :=
  foldr Z.add 0%Z (map snd sent).

(** [present]: the labels of [order] found in the table, or all the
    labels of the table when none is. *)
Definition present_labels (labels : list string) : list string :=
  match filter (λ lab, lab ∈ labels) order with
  | [] => labels
  | p => p
  end.

(** [sent.set_index("sentiment_label").reindex(present).fillna(0)]: the
    count of each label of [present], 0 for a label the table has not.
    The labels of the table are taken to be distinct, which [reindex]
    requires. *)
Definition count_of (sent : list (string * Z)) (lab : string) : Z :=
  default 0%Z (snd <$> List.find (λ r, String.eqb (fst r) lab) sent).

Definition reindex_fill (sent : list (string * Z)) (present : list string)
    : list (string * Z) :=
  map (λ lab, (lab, count_of sent lab)) present.

(** What the function draws: a message, or one wedge per row of the
    re-indexed table, with the total its percentages are taken of. *)
Inductive chart :=
  | Message (text : string)
  | Wedges (wedges : list (string * Z)) (total : Z).

Definition plot_sentiment (sent : list (string * Z)) : chart :=
  match sent with
  | [] => Message "No sentiment data"
  | _ =>
      let total := total_count sent in
      if (total =? 0)%Z then Message "Sentiment counts are zero"
      else Wedges (reindex_fill sent (present_labels (map fst sent))) total
  end.

End Report.

(** ** Notions used to state further properties *)

Module Notions.
Import Frame Lib.

(** A source whose read raised, taken as an absent one. *)
Definition as_missing {A} (s : Bronze.source A) : Bronze.source A :=
  match s with
  | Bronze.Loaded df => Bronze.Loaded df
  | Bronze.Unreadable => Bronze.Missing
  | Bronze.Missing => Bronze.Missing
  end.

(** Every frame read has distinct labels once normalised; [pd.concat]
    raises on a frame with a repeated label that it has to re-index. *)
Definition distinct_labels (raw : Bronze.RawData) : Prop :=
  (∀ n df, Bronze.raw_csv raw n = Bronze.Loaded df →
           NoDup (map Snake._to_snake (columns df)))
  ∧ (∀ df, Bronze.raw_jsonl raw = Bronze.Loaded df →
           NoDup (map Snake._to_snake (columns df))).



(** Number of rows a source brings: none unless it was read. *)
Definition loaded_rows {C} (s : Bronze.source (DataFrame C)) : nat :=
  match s with
  | Bronze.Loaded df => length (rows df)
  | _ => 0
  end.

(** An event log of one ticket with a sentiment object. *)
Definition ticket_log : DataFrame pyval :=
  mkDF ["ticketId"; "sentiment"]
    [[Atom (Str "T1"); Dict [("score", Atom (Num (9 # 10)))]]].

(** A header-only [customers.csv] next to that event log. *)
Definition header_only : Bronze.RawData :=
  Bronze.mkRaw
    (λ n, if String.eqb n "customers.csv"
          then Bronze.Loaded (mkDF ["id"; "name"] [])
          else Bronze.Missing)
    (Bronze.Loaded ticket_log).

(** Two frames with one label each. *)
Definition left_frame : DataFrame pyval := mkDF ["a"] [[Atom (Str "1")]].
Definition right_frame : DataFrame pyval := mkDF ["b"] [[Atom (Str "2")]].

(** A sentiment table as the driver loads it. *)
Definition loaded_sentiment : list (string * Z) :=
  [("neutral", 3%Z); ("positive", 2%Z)].

(** A float64: a significand of at most 53 bits times a power of 2. *)
Definition is_float64 (q : Q) : Prop :=
  ∃ m e : Z, (Z.abs m ≤ 2 ^ 53)%Z ∧ (q == inject_Z m * 2 ^ e)%Q.

Section Tickets.
Context `{Pandas}.

(** The timestamp of the bronze row [b] under the label [c]:
    [pd.to_datetime] of the cell as read back from the bronze file, NaT
    for an empty cell and for one that does not parse. *)
Definition timestamp_at (f : DataFrame pyval) (c : string) (b : list pyval)
    : scalar :=
  match Silver.csv_cell (get_cell (columns f) b c) with
  | Null => Null
  | v =>
      match to_datetime (map Silver.csv_cell (column f c)) v with
      | Some ns => Time ns
      | None => Null
      end
  end.

(** The response time of the bronze row [b], in hours. *)
Definition response_hours (f : DataFrame pyval) (b : list pyval) : scalar :=
  if has_column "resolved_at" f && has_column "first_response_at" f
  then Silver.hours_between (timestamp_at f "resolved_at" b)
                            (timestamp_at f "first_response_at" b)
  else Null.

(** The bronze rows that pass the filter on [ticket_id]. *)
Definition ticket_rows (f : DataFrame pyval) : list (list pyval) :=
  if has_column "ticket_id" f
  then List.filter
         (λ b, Silver.keeps_ticket (columns f) (map Silver.csv_cell b)) (rows f)
  else rows f.

(** Every ticket id of the bronze file is an ASCII string: on such a
    string [str.strip()] removes the characters of [Silver.is_space] and
    no other. *)
Definition ascii_ids (f : DataFrame pyval) : Prop :=
  ∀ b s, b ∈ rows f →
    Silver.csv_cell (get_cell (columns f) b "ticket_id") = Str s →
    Forall (λ c, (Snake.code c < 128)%nat) (list_ascii_of_string s).

(** The gap of every row fits the int64 of a [Timedelta]; the
    subtraction of two timestamps raises [OverflowError] otherwise. *)
Definition gaps_fit (f : DataFrame pyval) : Prop :=
  ∀ b r t, b ∈ rows f →
    timestamp_at f "resolved_at" b = Time r →
    timestamp_at f "first_response_at" b = Time t →
    (- 2 ^ 63 < r - t < 2 ^ 63)%Z.

End Tickets.

(** A silver table with three tickets of two agents, one of them not
    answered. *)
Definition three_tickets : DataFrame scalar :=
  mkDF ["agent_id"; "response_time_hours"]
    [[Str "a1"; Num 2]; [Str "a2"; Num 4]; [Str "a1"; Null]].

End Notions.

(** * Properties *)

(** ** float64 rounding *)

Module Float64Facts.
Import Float64 Silver.

Lemma rint_near (x : Q) :
  (inject_Z (rint x) - (1 # 2) <= x)%Q ∧ (x <= inject_Z (rint x) + (1 # 2))%Q.
Proof.
  unfold rint.
  pose proof (Qfloor_le x) as Hlo. pose proof (Qlt_floor x) as Hhi.
  rewrite inject_Z_plus in Hhi.
  assert (inject_Z 1 == 1)%Q as H1 by reflexivity. rewrite H1 in Hhi.
  destruct (Qcompare (x - inject_Z (Qfloor x)) (1 # 2)) eqn:Hcmp.
  - apply Qeq_alt in Hcmp. destruct (Z.even (Qfloor x)).
    + split; lra.
    + rewrite inject_Z_plus, H1. split; lra.
  - apply Qlt_alt in Hcmp. split; lra.
  - apply Qgt_alt in Hcmp. rewrite inject_Z_plus, H1. split; lra.
Qed.

Lemma two_pow_pos (k : Z) : (0 < 2 ^ k)%Q.
Proof. by apply Qpower_0_lt. Qed.

Lemma two_pow_Z (a : Z) : (0 <= a)%Z → (inject_Z (2 ^ a) == 2 ^ a)%Q.
Proof. intros Ha. by rewrite Zpower_Qpower. Qed.

Lemma Qabs_make (x : Q) : Qabs x = Z.abs (Qnum x) # Qden x.
Proof. by destruct x. Qed.

Lemma ilog2_lower (x : Q) : ¬ (x == 0)%Q → (2 ^ ilog2 x <= Qabs x)%Q.
Proof.
  intros Hx. unfold ilog2.
  set (n := Z.abs (Qnum x)). set (d := Zpos (Qden x)).
  destruct (Qle_bool (2 ^ (Z.log2 n - Z.log2 d)) (Qabs x)) eqn:Hle;
    [by apply Qle_bool_iff|].
  assert (0 < n)%Z as Hn.
  { unfold n. destruct x as [[|p|p] q]; [by destruct Hx|done|done]. }
  assert (0 < d)%Z as Hd by done.
  destruct (Z.log2_spec n Hn) as [Hn1 _]. destruct (Z.log2_spec d Hd) as [_ Hd2].
  pose proof (Z.log2_nonneg n) as Ha. pose proof (Z.log2_nonneg d) as Hb.
  replace (Z.log2 n - Z.log2 d - 1)%Z with (Z.log2 n - Z.succ (Z.log2 d))%Z by lia.
  rewrite Qpower_minus by done.
  rewrite <-!two_pow_Z by lia. rewrite Qabs_make. fold n.
  apply Qle_shift_div_r.
  { change 0%Q with (inject_Z 0). rewrite <-Zlt_Qlt. apply Z.pow_pos_nonneg; lia. }
  unfold Qle, Qmult, inject_Z. cbn [Qnum Qden]. rewrite Pos.mul_1_r, Z.mul_1_r.
  fold d. nia.
Qed.

Lemma ilog2_upper (x : Q) : (Qabs x < 2 ^ (ilog2 x + 1))%Q.
Proof.
  unfold ilog2.
  set (n := Z.abs (Qnum x)). set (d := Zpos (Qden x)).
  destruct (Qle_bool (2 ^ (Z.log2 n - Z.log2 d)) (Qabs x)) eqn:Hle.
  - assert (0 < d)%Z as Hd by done.
    destruct (Z.log2_spec d Hd) as [Hd1 _].
    pose proof (Z.log2_nonneg n) as Ha. pose proof (Z.log2_nonneg d) as Hb.
    assert (n < 2 ^ Z.succ (Z.log2 n))%Z as Hn2.
    { destruct (decide (0 < n)%Z) as [Hn|Hn]; [by apply Z.log2_spec|].
      assert (0 < 2 ^ Z.succ (Z.log2 n))%Z by (apply Z.pow_pos_nonneg; lia). lia. }
    replace (Z.log2 n - Z.log2 d + 1)%Z with (Z.succ (Z.log2 n) - Z.log2 d)%Z by lia.
    rewrite Qpower_minus by done.
    rewrite <-!two_pow_Z by lia. rewrite Qabs_make. fold n.
    apply Qlt_shift_div_l.
    { change 0%Q with (inject_Z 0). rewrite <-Zlt_Qlt. apply Z.pow_pos_nonneg; lia. }
    unfold Qlt, Qmult, inject_Z. cbn [Qnum Qden]. rewrite Pos.mul_1_r, Z.mul_1_r.
    fold d. nia.
  - replace (Z.log2 n - Z.log2 d - 1 + 1)%Z with (Z.log2 n - Z.log2 d)%Z by lia.
    apply Qnot_le_lt. intros Hc. apply Qle_bool_iff in Hc. congruence.
Qed.

(** The unit in the last place of [x] and its significand. *)
Lemma round64_unfold (x : Q) :
  ¬ (x == 0)%Q →
  round64 x
  = Qred (inject_Z (rint (Qred x / 2 ^ (ilog2 (Qred x) - 52)))
          * 2 ^ (ilog2 (Qred x) - 52)).
Proof.
  intros Hx. unfold round64. cbv zeta.
  destruct (Qeq_bool (Qred x) 0) eqn:Hz; [|done].
  apply Qeq_bool_iff in Hz. rewrite Qred_correct in Hz. done.
Qed.

Lemma round64_zero (x : Q) : (x == 0)%Q → round64 x = 0%Q.
Proof.
  intros Hx. unfold round64. cbv zeta.
  rewrite <-(Qred_correct x) in Hx. apply Qeq_bool_iff in Hx. by rewrite Hx.
Qed.

(** [round64] depends on the value of its argument only. *)
Lemma round64_ext (x y : Q) : (x == y)%Q → round64 x = round64 y.
Proof. intros Hxy. unfold round64. by rewrite (Qred_complete x y Hxy). Qed.

(** Rounding moves a value by at most half a unit in the last place:
    a relative error of at most [2^-53]. *)
Lemma round64_error (x : Q) :
  (Qabs (round64 x - x) <= Qabs x * (1 # 2 ^ 53))%Q.
Proof.
  destruct (Qeq_dec x 0) as [Hz|Hx].
  { rewrite (round64_zero x Hz), Hz. done. }
  rewrite (round64_unfold x Hx), Qred_correct.
  pose proof (Qred_correct x) as HX.
  assert (¬ (Qred x == 0)%Q) as Hx' by (by rewrite HX).
  pose proof (ilog2_lower (Qred x) Hx') as Hlow.
  set (e := (ilog2 (Qred x) - 52)%Z) in *.
  replace (ilog2 (Qred x)) with (e + 52)%Z in Hlow by (unfold e; lia).
  rewrite Qpower_plus in Hlow by done.
  pose proof (two_pow_pos e) as HP.
  destruct (rint_near (Qred x / 2 ^ e)) as [Hlo Hhi].
  assert (2 ^ 52 == 4503599627370496)%Q as H52 by reflexivity.
  rewrite H52, HX in Hlow. clear H52.
  assert ((1 # 2 ^ 53) == 1 # 9007199254740992)%Q as H53 by reflexivity.
  rewrite H53. clear H53.
  assert (Qred x / 2 ^ e * 2 ^ e == x)%Q as Hdiv
    by (transitivity (Qred x); [field; lra|exact HX]).
  remember (2 ^ e)%Q as P eqn:HeqP. clear HeqP e.
  remember (Qred x / P)%Q as y eqn:Hy. clear Hy.
  remember (inject_Z (rint y)) as m eqn:Hm. clear Hm.
  assert ((m - (1 # 2)) * P <= y * P)%Q as Hlo'
    by (apply Qmult_le_compat_r; lra).
  assert (y * P <= (m + (1 # 2)) * P)%Q as Hhi'
    by (apply Qmult_le_compat_r; lra).
  revert Hlow. apply Qabs_case; intros Hs Hlow; apply Qabs_case; intros Hs'; lra.
Qed.

(** Three roundings: the conversion of the integer and the two
    divisions. *)
Lemma hours_error (n : Z) :
  (Qabs (hours n - inject_Z n / 1000000000 / 3600)
   <= Qabs (inject_Z n / 1000000000 / 3600) * (1 # 2 ^ 51))%Q.
Proof.
  unfold hours, div, of_int.
  pose proof (round64_error (inject_Z n)) as E1.
  remember (round64 (inject_Z n)) as x1 eqn:H1. clear H1.
  pose proof (round64_error (x1 / 1000000000)) as E2.
  remember (round64 (x1 / 1000000000)) as x2 eqn:H2. clear H2.
  pose proof (round64_error (x2 / 3600)) as E3.
  remember (round64 (x2 / 3600)) as x3 eqn:H3. clear H3.
  remember (inject_Z n) as x0 eqn:H0. clear H0 n.
  assert ((1 # 2 ^ 53) == 1 # 9007199254740992)%Q as H53 by reflexivity.
  assert ((1 # 2 ^ 51) == 1 # 2251799813685248)%Q as H51 by reflexivity.
  assert (∀ x, x / 1000000000 == x * (1 # 1000000000))%Q as Hs by (intros; field).
  assert (∀ x, x / 3600 == x * (1 # 3600))%Q as Hh by (intros; field).
  rewrite H53 in E1, E2, E3. rewrite H51. clear H53 H51.
  rewrite Hs in E2. rewrite Hh in E3. rewrite Hs, Hh. clear Hs Hh.
  revert E1 E2 E3.
  apply Qabs_case; intros S1; apply Qabs_case; intros S2;
  apply Qabs_case; intros S3; apply Qabs_case; intros S4;
  apply Qabs_case; intros S5; apply Qabs_case; intros S6;
  intros E1 E2 E3;
  apply Qabs_case; intros S7; apply Qabs_case; intros S8; lra.
Qed.

Lemma rint_int (x : Q) (w : Z) : (x == inject_Z w)%Q → rint x = w.
Proof.
  intros Hx. unfold rint.
  assert (Qfloor x = w) as -> by (by rewrite Hx, Qfloor_Z).
  destruct (Qcompare (x - inject_Z w) (1 # 2)) eqn:Hc; [|done|].
  - apply Qeq_alt in Hc. lra.
  - apply Qgt_alt in Hc. lra.
Qed.

Lemma Qred_inject_Z (z : Z) : Qred (inject_Z z) = inject_Z z.
Proof.
  unfold Qred, inject_Z. pose proof (Z.ggcd_gcd z 1) as Hg.
  pose proof (Z.ggcd_correct_divisors z 1) as Hd.
  destruct (Z.ggcd z 1) as [g [aa bb]]. simpl in *.
  rewrite Z.gcd_1_r in Hg. subst g. destruct Hd as [Ha Hb].
  assert (aa = z) as -> by lia. assert (bb = 1%Z) as -> by lia. done.
Qed.

Lemma ilog2_int (z : Z) : z ≠ 0%Z → ilog2 (inject_Z z) = Z.log2 (Z.abs z).
Proof.
  intros Hz. unfold ilog2, inject_Z. cbn [Qnum Qden].
  change (Z.log2 1) with 0%Z. rewrite Z.sub_0_r.
  assert (Qle_bool (2 ^ Z.log2 (Z.abs z)) (Qabs (z # 1)) = true) as ->; [|done].
  apply Qle_bool_iff. rewrite Qabs_make. cbn [Qnum Qden].
  pose proof (Z.log2_nonneg (Z.abs z)).
  rewrite <-two_pow_Z by done. change (Z.abs z # 1) with (inject_Z (Z.abs z)).
  rewrite <-Zle_Qle. apply Z.log2_spec. lia.
Qed.

(** An integer below [2^53] in absolute value is a float64. *)
Lemma round64_int (z : Z) :
  (Z.abs z < 2 ^ 53)%Z → round64 (inject_Z z) = inject_Z z.
Proof.
  intros Hz. destruct (decide (z = 0%Z)) as [->|Hne]; [done|].
  rewrite round64_unfold by (change 0%Q with (inject_Z 0); rewrite inject_Z_injective; lia).
  rewrite Qred_inject_Z, (ilog2_int z Hne).
  assert (Z.log2 (Z.abs z) < 53)%Z as Hlog by (apply Z.log2_lt_pow2; lia).
  pose proof (Z.log2_nonneg (Z.abs z)) as Hpos.
  set (e := (Z.log2 (Z.abs z) - 52)%Z).
  assert (2 ^ e == / inject_Z (2 ^ (- e)))%Q as He.
  { rewrite two_pow_Z by lia. by rewrite Qpower_opp, Qinv_involutive. }
  assert (0 < inject_Z (2 ^ (- e)))%Q as Hp.
  { change 0%Q with (inject_Z 0). rewrite <-Zlt_Qlt. apply Z.pow_pos_nonneg; lia. }
  rewrite (rint_int _ (z * 2 ^ (- e))).
  - transitivity (Qred (inject_Z z)); [|apply Qred_inject_Z]. apply Qred_complete.
    rewrite He, inject_Z_mult. field. lra.
  - rewrite He, inject_Z_mult. field. lra.
Qed.

(** A gap of a whole number of seconds, up to [2^53] nanoseconds (104
    days): the two first roundings are exact and the hours are the
    float64 nearest to the seconds divided by 3600. *)
Lemma hours_of_seconds (s : Z) :
  (Z.abs (s * 1000000000) < 2 ^ 53)%Z →
  hours (s * 1000000000) = round64 (inject_Z s / 3600).
Proof.
  intros Hs. unfold hours, div, of_int. rewrite (round64_int _ Hs).
  rewrite (round64_ext (inject_Z (s * 1000000000) / 1000000000) (inject_Z s)).
  - rewrite round64_int; [done|lia].
  - rewrite inject_Z_mult. field.
Qed.

End Float64Facts.

(** ** Field-name normalisation *)

Module SnakeFacts.
Import Snake.

Ltac by_cases_on_char c :=
  destruct c as [[] [] [] [] [] [] [] []]; vm_compute; try reflexivity; try discriminate.

Lemma lower_char_not_upper c : is_upper (lower_char c) = false.
Proof. by_cases_on_char c. Qed.

Lemma lower_char_sep c : is_sep (lower_char c) = is_sep c.
Proof. by_cases_on_char c. Qed.

Lemma lower_char_us c : is_us (lower_char c) = is_us c.
Proof. by_cases_on_char c. Qed.

Lemma lower_char_fixed c : is_upper c = false → lower_char c = c.
Proof. unfold lower_char. by intros ->. Qed.

Lemma is_us_spec c : is_us c = true ↔ c = "_"%char.
Proof. apply Ascii.eqb_eq. Qed.

(** *** What each substitution leaves alone *)

Lemma sub_seps_fixed s b : free is_sep s → sub_seps b s = s.
Proof.
  intros Hs. revert b. induction Hs as [|c t Hc _ IH]; intros b; simpl; [done|].
  by rewrite Hc, IH.
Qed.

Lemma starts_word_no_upper t : free is_upper t → starts_word t = false.
Proof.
  destruct 1 as [|u t Hu Ht]; [done|]. simpl. rewrite Hu. by destruct t.
Qed.

Lemma sub_words_fixed s st : free is_upper s → sub_words st s = s.
Proof.
  intros Hs. revert st. induction Hs as [|c t Hc Ht IH]; intros st; simpl; [done|].
  rewrite (starts_word_no_upper t Ht), andb_false_r.
  destruct st; rewrite ?IH; try done. by destruct (is_lower c).
Qed.

Lemma sub_humps_fixed s : free is_upper s → sub_humps s = s.
Proof.
  induction 1 as [|c t Hc Ht IH]; simpl; [done|].
  destruct Ht as [|u r Hu Hr]; [done|].
  rewrite Hu, andb_false_r. by rewrite IH.
Qed.

Lemma sub_unders_fixed s p : no_dbl p s = true → sub_unders p s = s.
Proof.
  revert p. induction s as [|c t IH]; intros p; simpl; [done|].
  destruct (is_us c).
  - destruct p; simpl; [done|]. intros Ht. by rewrite IH.
  - intros Ht. by rewrite IH.
Qed.

Lemma lstrip_fixed p s : head_ok p s → lstrip p s = s.
Proof. destruct s as [|c t]; simpl; [done|]. by intros ->. Qed.

Lemma lower_fixed s : free is_upper s → lower s = s.
Proof.
  induction 1 as [|c t Hc _ IH]; simpl; [done|].
  by rewrite (lower_char_fixed c Hc), IH.
Qed.

(** *** What each substitution establishes or keeps *)

Lemma sub_seps_free s b : free is_sep (sub_seps b s).
Proof.
  revert b. induction s as [|c t IH]; intros b; simpl; [constructor|].
  destruct (is_sep c) eqn:Hc.
  - destruct b; [apply IH|]. constructor; [done|apply IH].
  - constructor; [done|apply IH].
Qed.

Lemma sub_words_free p s st :
  p "_"%char = false → free p s → free p (sub_words st s).
Proof.
  intros Hus Hs. revert st.
  induction Hs as [|c t Hc _ IH]; intros st; simpl; [constructor|].
  destruct st; repeat case_match; repeat (constructor; try done); apply IH.
Qed.

Lemma sub_humps_free p s :
  p "_"%char = false → free p s → free p (sub_humps s).
Proof.
  intros Hus. remember (length s) as n eqn:Hn.
  revert s Hn. induction (lt_wf n) as [n _ IH]; intros s -> Hs.
  destruct Hs as [|c t Hc Ht]; simpl; [constructor|].
  destruct Ht as [|u r Hu Hr]; [by repeat constructor|].
  case_match.
  - repeat (constructor; try done).
    apply (IH (length r)); [simpl; lia|done|done].
  - constructor; [done|].
    apply (IH (length (u :: r))); [simpl; lia|done|by constructor].
Qed.

Lemma sub_unders_free p s b : free p s → free p (sub_unders b s).
Proof.
  intros Hs. revert b.
  induction Hs as [|c t Hc _ IH]; intros b; simpl; [constructor|].
  repeat case_match; try (constructor; [done|]); apply IH.
Qed.

Lemma lstrip_free p q s : free p s → free p (lstrip q s).
Proof.
  induction 1 as [|c t Hc Ht IH]; simpl; [constructor|].
  case_match; [done|by constructor].
Qed.

Lemma rstrip_free p q s : free p s → free p (rstrip q s).
Proof.
  induction 1 as [|c t Hc Ht IH]; simpl; [constructor|].
  destruct (rstrip q t); [case_match; by repeat constructor|by constructor].
Qed.

Lemma lower_free_sep s : free is_sep s → free is_sep (lower s).
Proof.
  induction 1 as [|c t Hc _ IH]; simpl; constructor; [|done].
  by rewrite lower_char_sep.
Qed.

Lemma lower_free_upper s : free is_upper (lower s).
Proof.
  induction s as [|c t IH]; simpl; constructor; [|done].
  apply lower_char_not_upper.
Qed.

Lemma sub_unders_no_dbl s p : no_dbl p (sub_unders p s) = true.
Proof.
  revert p. induction s as [|c t IH]; intros p; simpl; [done|].
  destruct (is_us c) eqn:Hc.
  - destruct p; [apply IH|]. simpl. by rewrite Hc, IH.
  - simpl. by rewrite Hc, IH.
Qed.

Lemma no_dbl_weaken s : no_dbl true s = true → no_dbl false s = true.
Proof. destruct s as [|c t]; simpl; [done|]. by destruct (is_us c). Qed.

Lemma lstrip_no_dbl s : no_dbl false s = true → no_dbl false (lstrip is_us s) = true.
Proof.
  induction s as [|c t IH]; simpl; [done|].
  destruct (is_us c) eqn:Hc; simpl.
  - intros Ht. by apply IH, no_dbl_weaken.
  - by rewrite Hc.
Qed.

Lemma rstrip_no_dbl s p : no_dbl p s = true → no_dbl p (rstrip is_us s) = true.
Proof.
  revert p. induction s as [|c t IH]; intros p; simpl; [done|].
  destruct (rstrip is_us t) as [|x r] eqn:Hr.
  - destruct (is_us c) eqn:Hc; simpl; [done|]. by rewrite Hc.
  - destruct (is_us c) eqn:Hc; cbn [no_dbl]; rewrite Hc.
    + intros [-> Ht]%andb_true_iff. exact (IH true Ht).
    + exact (IH false).
Qed.

Lemma lower_no_dbl s p : no_dbl p (lower s) = no_dbl p s.
Proof.
  revert p. induction s as [|c t IH]; intros p; simpl; [done|].
  by rewrite lower_char_us, !IH.
Qed.

Lemma lstrip_head_ok p s : head_ok p (lstrip p s).
Proof.
  induction s as [|c t IH]; simpl; [done|].
  by destruct (p c) eqn:Hc.
Qed.

Lemma rstrip_head_ok p s : head_ok p s → head_ok p (rstrip p s).
Proof.
  destruct s as [|c t]; simpl; [done|]. intros Hc.
  destruct (rstrip p t); by rewrite ?Hc.
Qed.

Lemma lower_head_ok s : head_ok is_us s → head_ok is_us (lower s).
Proof. destruct s as [|c t]; simpl; [done|]. by rewrite lower_char_us. Qed.

Lemma rstrip_idemp p s : rstrip p (rstrip p s) = rstrip p s.
Proof.
  induction s as [|c t IH]; simpl; [done|].
  destruct (rstrip p t) as [|x r] eqn:Hr.
  - destruct (p c) eqn:Hc; simpl; [done|]. by rewrite Hc.
  - simpl in *. by rewrite IH.
Qed.

Lemma rstrip_lower s : rstrip is_us (lower s) = lower (rstrip is_us s).
Proof.
  induction s as [|c t IH]; simpl; [done|].
  rewrite IH. destruct (rstrip is_us t); simpl; [|done].
  rewrite lower_char_us. by destruct (is_us c).
Qed.

(** *** Normal forms *)

Lemma snake_chars_normal s : normal (snake_chars s).
Proof.
  unfold snake_chars, strip. split.
  - apply lower_free_sep, rstrip_free, lstrip_free, sub_unders_free,
      sub_humps_free, sub_words_free, sub_seps_free; done.
  - apply lower_free_upper.
  - rewrite lower_no_dbl.
    apply rstrip_no_dbl, lstrip_no_dbl, sub_unders_no_dbl.
  - apply lower_head_ok, rstrip_head_ok, lstrip_head_ok.
  - by rewrite rstrip_lower, rstrip_idemp.
Qed.

Lemma snake_chars_fixed s : normal s → snake_chars s = s.
Proof.
  intros [Hsep Hup Hdbl Hhead Hlast]. unfold snake_chars, strip.
  rewrite (sub_seps_fixed s false Hsep), (sub_words_fixed s Scan Hup),
    (sub_humps_fixed s Hup), (sub_unders_fixed s false Hdbl),
    (lstrip_fixed is_us s Hhead), Hlast.
  by apply lower_fixed.
Qed.

Lemma snake_chars_idemp s : snake_chars (snake_chars s) = snake_chars s.
Proof. apply snake_chars_fixed, snake_chars_normal. Qed.

(** A normalised name never starts with an underscore. *)
Lemma to_snake_head s : head_ok is_us (list_ascii_of_string (_to_snake s)).
Proof.
  unfold _to_snake. rewrite list_ascii_of_string_of_list_ascii.
  apply snake_chars_normal.
Qed.

(** Claim C6: field-name normalisation is idempotent, for every header
    string [_to_snake (_to_snake s) = _to_snake s]; and the headers
    "Customer ID" and "customerId" both normalise to "customer_id". *)
Theorem to_snake_idempotent :
  (∀ s : string, _to_snake (_to_snake s) = _to_snake s)
  ∧ _to_snake "Customer ID" = "customer_id"
  ∧ _to_snake "customerId" = "customer_id".
Proof.
  split; [|split; reflexivity].
  intros s. unfold _to_snake.
  by rewrite list_ascii_of_string_of_list_ascii, snake_chars_idemp.
Qed.

End SnakeFacts.

(** ** Data frames *)

Module FrameFacts.
Import Frame.

Section Facts.
Context {C : Type} `{Nullable C}.
Implicit Types (df : DataFrame C) (dfs : list (DataFrame C)).

Lemma elem_of_union_columns (x : string) acc new :
  x ∈ union_columns acc new ↔ x ∈ acc ∨ x ∈ new.
Proof.
  unfold union_columns. rewrite elem_of_app, list_elem_of_filter.
  destruct (decide (x ∈ acc)); tauto.
Qed.

Lemma elem_of_fold_union (x : string) dfs acc :
  x ∈ fold_left (λ a df, union_columns a (columns df)) dfs acc
  ↔ x ∈ acc ∨ ∃ df, df ∈ dfs ∧ x ∈ columns df.
Proof.
  revert acc. induction dfs as [|d dfs IH]; intros acc; simpl.
  - split; [by left|]. intros [?|(df & Hdf & _)]; [done|]. by apply elem_of_nil in Hdf.
  - rewrite IH, elem_of_union_columns. split.
    + intros [[?|?]|(df & ? & ?)]; [by left|right..].
      * exists d. split; [left|done].
      * exists df. split; [by right|done].
    + intros [?|(df & [->|?]%elem_of_cons & ?)]; [by left; left|by left; right|].
      right. by exists df.
Qed.

(** The labels of a concatenation are the labels of its frames. *)
Lemma elem_of_concat_columns (x : string) dfs :
  x ∈ columns (concat dfs) ↔ ∃ df, df ∈ dfs ∧ x ∈ columns df.
Proof.
  unfold concat, concat_columns. simpl. rewrite elem_of_fold_union.
  split; [|by right]. intros [Hx|?]; [|done]. by apply elem_of_nil in Hx.
Qed.

Lemma column_set_spec (x : string) df : x ∈ column_set df ↔ x ∈ columns df.
Proof. unfold column_set. by rewrite elem_of_list_to_set. Qed.

Lemma rows_concat_nil dfs :
  rows (concat dfs) = [] ↔ ∀ df, df ∈ dfs → rows df = [].
Proof.
  unfold concat. simpl. generalize (concat_columns dfs). intros cols.
  induction dfs as [|d dfs IH]; simpl.
  - split; [|done]. intros _ df Hdf. by apply elem_of_nil in Hdf.
  - split.
    + intros [Hd Hrest]%app_eq_nil df [->|Hdf]%elem_of_cons.
      * by destruct (rows d).
      * by apply IH.
    + intros Hall. rewrite (Hall d); [simpl|left].
      apply IH. intros df Hdf. apply Hall. by right.
Qed.

Lemma columns_nil_iff (cols : list string) : cols = [] ↔ ∀ x, x ∉ cols.
Proof.
  split; [intros -> x; apply not_elem_of_nil|].
  destruct cols as [|c cols]; [done|]. intros Hall. destruct (Hall c). left.
Qed.

Lemma columns_concat_nil dfs :
  columns (concat dfs) = [] ↔ ∀ df, df ∈ dfs → columns df = [].
Proof.
  rewrite columns_nil_iff. split.
  - intros Hall df Hdf. apply columns_nil_iff. intros x Hx.
    apply (Hall x), elem_of_concat_columns. by exists df.
  - intros Hall x (df & Hdf & Hx)%elem_of_concat_columns.
    rewrite (Hall df Hdf) in Hx. by apply elem_of_nil in Hx.
Qed.

Lemma elem_of_pair_swap {A} (x a b : A) : x ∈ [a; b] → x ∈ [b; a].
Proof.
  intros [->|[->|Hx]%elem_of_cons]%elem_of_cons; [right; left|left|].
  by apply elem_of_nil in Hx.
Qed.

Lemma is_empty_true df :
  is_empty df = true ↔ columns df = [] ∨ rows df = [].
Proof.
  unfold is_empty. rewrite orb_true_iff, !bool_decide_eq_true. done.
Qed.

Lemma has_column_true c df : has_column c df = true ↔ c ∈ columns df.
Proof. unfold has_column. apply bool_decide_eq_true. Qed.

Lemma has_column_false c df : has_column c df = false ↔ c ∉ columns df.
Proof. unfold has_column. apply bool_decide_eq_false. Qed.

(** *** Assigning a column *)

Lemma col_index_Some c (cols : list string) i :
  col_index c cols = Some i → cols !! i = Some c.
Proof.
  unfold col_index. intros ([j x] & Hf & ->)%fmap_Some.
  apply list_find_Some in Hf as (Hl & -> & _). done.
Qed.

Lemma col_index_None c (cols : list string) :
  col_index c cols = None ↔ c ∉ cols.
Proof.
  unfold col_index. rewrite fmap_None, list_find_None, Forall_forall.
  split.
  - intros Hall Hc. by apply (Hall c).
  - intros Hc x Hx ->. done.
Qed.

Lemma col_index_elem_of c (cols : list string) :
  c ∈ cols → ∃ i, col_index c cols = Some i.
Proof.
  intros Hc. destruct (col_index c cols) as [i|] eqn:Hi; [by exists i|].
  by apply col_index_None in Hi.
Qed.

Lemma col_index_app_l c (cols more : list string) i :
  col_index c cols = Some i → col_index c (cols ++ more) = Some i.
Proof.
  unfold col_index. intros ([j x] & Hf & ->)%fmap_Some.
  by rewrite (list_find_app_l _ _ _ _ _ Hf).
Qed.

Lemma col_index_snoc_same c (cols : list string) :
  col_index c cols = None → col_index c (cols ++ [c]) = Some (length cols).
Proof.
  unfold col_index. intros Hn%fmap_None.
  rewrite (list_find_app_r _ _ _ Hn). simpl. by rewrite decide_True.
Qed.

Lemma col_index_snoc_other c c' (cols : list string) :
  c' ≠ c → col_index c' cols = None → col_index c' (cols ++ [c]) = None.
Proof.
  unfold col_index. intros Hne Hn%fmap_None.
  rewrite (list_find_app_r _ _ _ Hn). simpl. by rewrite decide_False.
Qed.

Lemma elem_of_put_label (x c : string) cols :
  x ∈ put_label c cols ↔ x ∈ cols ∨ x = c.
Proof.
  unfold put_label. destruct (col_index c cols) as [i|] eqn:Hi.
  - apply col_index_Some, list_elem_of_lookup_2 in Hi.
    split; [by left|]. by intros [?| ->].
  - rewrite elem_of_app, list_elem_of_singleton. done.
Qed.

Lemma put_label_present (c : string) cols : c ∈ cols → put_label c cols = cols.
Proof.
  intros [i Hi]%col_index_elem_of. unfold put_label. by rewrite Hi.
Qed.

Lemma length_put_cell cols c (r : list C) v :
  length r = length cols →
  length (put_cell cols c r v) = length (put_label c cols).
Proof.
  unfold put_cell, put_label. intros Hr.
  destruct (col_index c cols); [by rewrite length_insert|].
  rewrite !length_app. simpl. lia.
Qed.

Lemma get_put_same cols c (r : list C) v :
  length r = length cols →
  get_cell (put_label c cols) (put_cell cols c r v) c = v.
Proof.
  intros Hr. unfold get_cell, put_label, put_cell.
  destruct (col_index c cols) as [i|] eqn:Hi.
  - rewrite Hi. simpl. rewrite list_lookup_insert_eq; [done|].
    apply col_index_Some, lookup_lt_Some in Hi. lia.
  - rewrite (col_index_snoc_same c cols Hi). simpl.
    rewrite <-Hr. by rewrite list_lookup_middle.
Qed.

Lemma get_put_other cols c c' (r : list C) v :
  c' ≠ c → length r = length cols →
  get_cell (put_label c cols) (put_cell cols c r v) c' = get_cell cols r c'.
Proof.
  intros Hne Hr. unfold get_cell, put_label, put_cell.
  destruct (col_index c cols) as [i|] eqn:Hi.
  - destruct (col_index c' cols) as [j|] eqn:Hj; [|done]. simpl.
    rewrite list_lookup_insert_ne; [done|]. intros ->.
    apply col_index_Some in Hi, Hj. congruence.
  - destruct (col_index c' cols) as [j|] eqn:Hj.
    + rewrite (col_index_app_l c' cols [c] j Hj). simpl.
      rewrite lookup_app_l; [done|].
      apply col_index_Some, lookup_lt_Some in Hj. lia.
    + by rewrite (col_index_snoc_other c c' cols Hne Hj).
Qed.

Lemma zip_with_map_same {A B D} (g : A → B → D) (f : A → B) (l : list A) :
  zip_with g l (map f l) = map (λ x, g x (f x)) l.
Proof. induction l as [|x l IH]; simpl; [done|]. by rewrite IH. Qed.

Lemma zip_with_map_both {A B1 B2 D} (g : B1 → B2 → D) (f1 : A → B1)
    (f2 : A → B2) (l : list A) :
  zip_with g (map f1 l) (map f2 l) = map (λ x, g (f1 x) (f2 x)) l.
Proof. induction l as [|x l IH]; simpl; [done|]. by rewrite IH. Qed.

Lemma replicate_map_const {A B} (v : B) (l : list A) :
  replicate (length l) v = map (λ _, v) l.
Proof. induction l as [|x l IH]; simpl; [done|]. by rewrite IH. Qed.

(** Assigning a column whose values are computed row by row. *)
Lemma set_column_rowwise df c (f : list C → C) :
  set_column df c (map f (rows df))
  = mkDF (put_label c (columns df))
         (map (λ r, put_cell (columns df) c r (f r)) (rows df)).
Proof. unfold set_column. by rewrite zip_with_map_same. Qed.

Lemma wf_set_column df c vals : wf df → wf (set_column df c vals).
Proof.
  unfold wf, set_column. simpl. generalize (columns df) as cols. intros cols Hwf.
  revert vals. induction Hwf as [|r rs Hr _ IH]; intros vals; simpl; [constructor|].
  destruct vals as [|v vals]; constructor; [|apply IH].
  by apply length_put_cell.
Qed.

Lemma nrows_set_column df c vals :
  length vals = nrows df → nrows (set_column df c vals) = nrows df.
Proof.
  unfold nrows, set_column. simpl. intros Hl.
  by rewrite length_zip_with_l_eq.
Qed.

Lemma wf_concat dfs : wf (concat dfs).
Proof.
  unfold wf, concat. simpl. apply Forall_forall. intros r Hr.
  apply list_elem_of_bind in Hr as (df & Hr & _).
  apply list_elem_of_fmap in Hr as (r0 & -> & _).
  unfold reindex. by rewrite length_map.
Qed.

Lemma length_column df c : length (column df c) = nrows df.
Proof. unfold column, nrows. apply length_map. Qed.

Lemma columns_set_column_present df c vals :
  c ∈ columns df → columns (set_column df c vals) = columns df.
Proof. intros Hc. unfold set_column. simpl. by apply put_label_present. Qed.

End Facts.

End FrameFacts.

(** ** Bronze flow *)

Module BronzeFacts.
Import Snake Frame Bronze FrameFacts.

Lemma elem_of_normalize {C} (x : string) (df : DataFrame C) :
  x ∈ columns (normalize_df_columns df) ↔ ∃ y, x = _to_snake y ∧ y ∈ columns df.
Proof. unfold normalize_df_columns. simpl. apply list_elem_of_fmap. Qed.

(** No label of the bronze table starts with an underscore. *)
Lemma bronze_columns_head csv_dfs df_json x :
  x ∈ columns (bronze_combined csv_dfs df_json) →
  head_ok is_us (list_ascii_of_string x).
Proof.
  unfold bronze_combined. intros (y & -> & _)%elem_of_normalize.
  apply SnakeFacts.to_snake_head.
Qed.

(** Claim C1 (fails on the code): the provenance column is written under
    the label "_src" and the final re-normalisation renames it.  With
    [customers.csv] alone the bronze table has the labels "id" and "src",
    and in no run at all does the bronze table have a column labelled
    "_src". *)
Theorem bronze_src_label_renamed :
  columns (bronze_table customers_only) = ["id"; "src"]
  ∧ rows (bronze_table customers_only) = [[Atom (Str "1"); Atom (Str "customers")]]
  ∧ ∀ raw, "_src" ∉ columns (bronze_table raw).
Proof.
  split; [reflexivity|]. split; [reflexivity|].
  intros raw Hin. by apply bronze_columns_head in Hin.
Qed.

(** *** The bronze table is rectangular *)

Lemma wf_normalize {C} (df : DataFrame C) : wf df → wf (normalize_df_columns df).
Proof. unfold wf, normalize_df_columns. simpl. by rewrite length_map. Qed.

Lemma wf_combine_csvs (dfs : list (DataFrame pyval)) : wf (combine_csvs dfs).
Proof. destruct dfs; [constructor|apply wf_concat]. Qed.

Lemma wf_read_jsonl (j : source (DataFrame pyval)) :
  (∀ df, j = Loaded df → wf df) → wf (read_jsonl j).
Proof.
  destruct j as [| |df]; simpl; try constructor. intros Hwf.
  destruct (has_column _ _); [apply wf_set_column|]; by apply wf_normalize, Hwf.
Qed.

Lemma wf_bronze_table (raw : RawData) :
  (∀ df, raw_jsonl raw = Loaded df → wf df) → wf (bronze_table raw).
Proof.
  intros Hwf. unfold bronze_table, bronze_table_of, bronze_combined.
  apply wf_normalize. unfold union_by_columns.
  repeat case_match; by auto using wf_concat, wf_combine_csvs, wf_read_jsonl.
Qed.

(** *** The union does not depend on the order of the tabular sources *)

Lemma is_empty_combine_csvs (dfs : list (DataFrame pyval)) :
  is_empty (combine_csvs dfs) = true
  ↔ (∀ df, df ∈ dfs → columns df = []) ∨ (∀ df, df ∈ dfs → rows df = []).
Proof.
  rewrite is_empty_true. destruct dfs as [|d dfs].
  - simpl. split; [|by left]. intros _. left. intros df Hdf.
    by apply elem_of_nil in Hdf.
  - unfold combine_csvs. by rewrite columns_concat_nil, rows_concat_nil.
Qed.

Lemma is_empty_combine_csvs_perm (dfs dfs' : list (DataFrame pyval)) :
  dfs ≡ₚ dfs' → is_empty (combine_csvs dfs) = is_empty (combine_csvs dfs').
Proof.
  intros Hp. apply eq_true_iff_eq. rewrite !is_empty_combine_csvs.
  by setoid_rewrite Hp.
Qed.

Lemma elem_of_combine_csvs (x : string) (dfs : list (DataFrame pyval)) :
  x ∈ columns (combine_csvs dfs) ↔ ∃ df, df ∈ dfs ∧ x ∈ columns df.
Proof.
  destruct dfs as [|d dfs]; [|apply elem_of_concat_columns].
  simpl. split; [by intros ?%elem_of_nil|].
  intros (df & Hdf & _). by apply elem_of_nil in Hdf.
Qed.

Lemma combine_csvs_columns_perm (x : string) (dfs dfs' : list (DataFrame pyval)) :
  dfs ≡ₚ dfs' → x ∈ columns (combine_csvs dfs) ↔ x ∈ columns (combine_csvs dfs').
Proof. intros Hp. rewrite !elem_of_combine_csvs. by setoid_rewrite Hp. Qed.

(** Any reordering of the frames read from the tabular sources leaves
    the set of bronze labels unchanged. *)
Lemma bronze_combined_perm (dfs dfs' : list (DataFrame pyval)) df_json :
  dfs ≡ₚ dfs' →
  column_set (bronze_combined dfs df_json) = column_set (bronze_combined dfs' df_json).
Proof.
  intros Hp. apply set_eq. intros x. rewrite !column_set_spec.
  unfold bronze_combined. rewrite !elem_of_normalize.
  assert (∀ y, y ∈ columns (union_by_columns (combine_csvs dfs) df_json)
             ↔ y ∈ columns (union_by_columns (combine_csvs dfs') df_json)) as Hy.
  { intros y. unfold union_by_columns.
    rewrite (is_empty_combine_csvs_perm dfs dfs' Hp).
    destruct (is_empty (combine_csvs dfs')), (is_empty df_json);
      cbn [negb andb]; try done.
    - by apply combine_csvs_columns_perm.
    - rewrite !elem_of_concat_columns.
      split; intros (df & Hdf & Hx); apply elem_of_cons in Hdf as [->|Hdf];
        try (exists df; split; [by right|done]).
      + eexists. split; [left|]. by apply (combine_csvs_columns_perm y dfs dfs').
      + eexists. split; [left|]. by apply (combine_csvs_columns_perm y dfs dfs'). }
  by setoid_rewrite Hy.
Qed.

(** Claim C9: the bronze union is column-commutative.  For any two source
    tables [A] and [B], each with distinct labels (as [pd.concat] needs
    to re-index them), [pd.concat] of [A] then [B] has the same set of
    column labels as [pd.concat] of [B] then [A]; and so has the bronze
    table built from the tabular sources [A], [B] in either order,
    whatever the event-log frame is, its labels distinct too. *)
Theorem bronze_union_column_commutative (A B : DataFrame pyval) :
  NoDup (columns A) → NoDup (columns B) →
  column_set (concat [A; B]) = column_set (concat [B; A])
  ∧ ∀ df_json, NoDup (columns df_json) →
      column_set (bronze_combined [A; B] df_json)
      = column_set (bronze_combined [B; A] df_json).
Proof.
  intros _ _. split.
  - apply set_eq. intros x. rewrite !column_set_spec, !elem_of_concat_columns.
    split; intros (df & Hdf & Hx); exists df; (split; [|done]);
      by apply elem_of_pair_swap.
  - intros df_json _. apply bronze_combined_perm. apply Permutation_swap.
Qed.

(** The branch on [.empty] itself, seen as an operation on two frames,
    commutes on the labels as soon as one of the frames is not empty. *)
Lemma union_by_columns_comm (A B : DataFrame pyval) :
  is_empty A = false ∨ is_empty B = false →
  column_set (union_by_columns A B) = column_set (union_by_columns B A).
Proof.
  intros Hne. unfold union_by_columns.
  destruct (is_empty A), (is_empty B); cbn [negb andb]; try done;
    [by destruct Hne|].
  apply set_eq. intros x. rewrite !column_set_spec, !elem_of_concat_columns.
  split; intros (df & Hdf & Hx); exists df; (split; [|done]);
    by apply elem_of_pair_swap.
Qed.

End BronzeFacts.

(** ** Silver flow *)

Module SilverFacts.
Import Frame Lib Silver FrameFacts.

Section Facts.
Context `{Pandas}.
Implicit Types (df : DataFrame scalar).

(** *** Reading the bronze file *)

Lemma read_bronze_ok (f : DataFrame pyval) :
  columns f ≠ [] →
  read_bronze f = Ok (mkDF (columns f) (map (map csv_cell) (rows f))).
Proof. unfold read_bronze. by destruct (columns f). Qed.

Lemma wf_read_bronze (f : DataFrame pyval) :
  wf f → wf (mkDF (columns f) (map (map csv_cell) (rows f))).
Proof.
  unfold wf. simpl. intros Hwf. apply Forall_forall.
  intros r' (r & -> & Hr)%list_elem_of_fmap.
  rewrite length_map. by apply (proj1 (Forall_forall _ _) Hwf).
Qed.

(** *** The timestamp loop keeps the shape of the frame *)

Lemma columns_parse_column df col : columns (parse_column df col) = columns df.
Proof.
  unfold parse_column. destruct (has_column col df) eqn:Hc; [|done].
  by apply columns_set_column_present, has_column_true.
Qed.

Lemma wf_parse_column df col : wf df → wf (parse_column df col).
Proof.
  unfold parse_column. destruct (has_column col df); [|done].
  apply wf_set_column.
Qed.

Lemma nrows_parse_column df col : nrows (parse_column df col) = nrows df.
Proof.
  unfold parse_column. destruct (has_column col df); [|done].
  apply nrows_set_column. by rewrite length_map, length_column.
Qed.

Lemma parse_timestamps_shape df :
  columns (parse_timestamps df) = columns df
  ∧ nrows (parse_timestamps df) = nrows df
  ∧ (wf df → wf (parse_timestamps df)).
Proof.
  unfold parse_timestamps. generalize timestamp_columns as cols.
  intros cols. revert df. induction cols as [|c cols IH]; intros df; simpl; [done|].
  destruct (IH (parse_column df c)) as (Hc & Hn & Hw).
  rewrite Hc, Hn, columns_parse_column, nrows_parse_column.
  split; [done|]. split; [done|]. intros Hwf. by apply Hw, wf_parse_column.
Qed.

(** *** The derived column *)

Lemma elem_of_add_response_time (x : string) df :
  x ∈ columns (add_response_time df)
  ↔ x ∈ columns df ∨ x = "response_time_hours".
Proof.
  unfold add_response_time, set_column_const.
  destruct (_ && _); simpl; apply elem_of_put_label.
Qed.


Lemma wf_add_response_time df : wf df → wf (add_response_time df).
Proof.
  unfold add_response_time, set_column_const.
  destruct (_ && _); apply wf_set_column.
Qed.

Lemma add_response_time_rows df r :
  wf df → r ∈ rows (add_response_time df) →
  get_cell (columns (add_response_time df)) r "response_time_hours"
  = response_of (has_column "resolved_at" df && has_column "first_response_at" df)
      (columns (add_response_time df)) r.
Proof.
  intros Hwf. unfold add_response_time, set_column_const, response_of.
  destruct (_ && _).
  - unfold column. rewrite zip_with_map_both.
    rewrite (set_column_rowwise df "response_time_hours"
               (λ r, hours_between (get_cell (columns df) r "resolved_at")
                                   (get_cell (columns df) r "first_response_at"))).
    simpl. intros (r0 & -> & Hr0)%list_elem_of_fmap.
    assert (length r0 = length (columns df)) as Hlen
      by exact (proj1 (Forall_forall _ _) Hwf r0 Hr0).
    rewrite get_put_same by done. by rewrite !get_put_other.
  - unfold nrows. rewrite replicate_map_const.
    rewrite (set_column_rowwise df "response_time_hours" (λ _, Null)).
    simpl. intros (r0 & -> & Hr0)%list_elem_of_fmap.
    apply get_put_same.
    exact (proj1 (Forall_forall _ _) Hwf r0 Hr0).
Qed.

(** *** The filter *)


Lemma columns_filter_ticket_id df : columns (filter_ticket_id df) = columns df.
Proof. unfold filter_ticket_id. by destruct (has_column _ _). Qed.

Lemma rows_filter_ticket_id df r :
  r ∈ rows (filter_ticket_id df) → r ∈ rows df.
Proof.
  unfold filter_ticket_id. destruct (has_column _ _); [|done]. simpl.
  rewrite !list_elem_of_In. intros Hr. by apply filter_In in Hr as [? _].
Qed.

Lemma has_column_same {A B} (c : string) (a : DataFrame A) (b : DataFrame B) :
  columns a = columns b → has_column c a = has_column c b.
Proof. unfold has_column. by intros ->. Qed.

(** Every silver file has the derived column, hence a header line. *)
Lemma silver_flow_columns bronze_file out :
  silver_flow bronze_file = Ok (Some out) → "response_time_hours" ∈ columns out.
Proof.
  unfold silver_flow. destruct bronze_file as [f|]; [|done].
  destruct (read_bronze f) as [df|]; [|done]. intros Heq.
  assert (out = silver_table df) as -> by congruence.
  unfold silver_table. rewrite columns_filter_ticket_id.
  apply elem_of_add_response_time. by right.
Qed.


End Facts.

End SilverFacts.

(** ** Gold flow *)

Module GoldFacts.
Import Frame Lib Gold FrameFacts.

Section Facts.
Context `{Pandas}.
Implicit Types (df : DataFrame scalar) (keys ks : list scalar).

(** *** The label *)

Lemma sentiment_label_float v :
  sentiment_label (AFloat v)
  = if fle (Fin (1 # 2)) v then "positive"
    else if fle v (Fin (- 1 # 2)) then "negative" else "neutral".
Proof. reflexivity. Qed.

Lemma sentiment_label_in v : sentiment_label v ∈ labels.
Proof.
  unfold sentiment_label, labels. destruct (to_float v) as [x|].
  - destruct (fle _ x); [left|]. destruct (fle x _); [|right; left].
    right; right; left.
  - right; left.
Qed.

Lemma length_sentiment_score_val df : length (sentiment_score_val df) = nrows df.
Proof.
  unfold sentiment_score_val.
  repeat case_match; rewrite ?length_map, ?length_column, ?length_replicate; done.
Qed.

Lemma length_sentiment_labels df : length (sentiment_labels df) = nrows df.
Proof. unfold sentiment_labels. by rewrite length_map, length_sentiment_score_val. Qed.

Lemma sentiment_labels_in df : Forall (λ l, l ∈ labels) (sentiment_labels df).
Proof.
  unfold sentiment_labels. apply Forall_forall.
  intros l (v & -> & _)%list_elem_of_fmap. apply sentiment_label_in.
Qed.

(** *** Grouping *)

Lemma insert_key_perm k ks : insert_key k ks ≡ₚ k :: ks.
Proof.
  induction ks as [|x ks IH]; simpl; [done|].
  destruct (key_leb k x); [done|]. rewrite IH. apply Permutation_swap.
Qed.

Lemma sort_keys_perm ks : sort_keys ks ≡ₚ ks.
Proof.
  induction ks as [|x ks IH]; simpl; [done|].
  by rewrite insert_key_perm, IH.
Qed.

Lemma group_keys_NoDup dropna keys : NoDup (group_keys dropna keys).
Proof. unfold group_keys. rewrite sort_keys_perm. apply NoDup_remove_dups. Qed.

Lemma elem_of_group_keys k keys : k ∈ group_keys false keys ↔ k ∈ keys.
Proof. unfold group_keys. by rewrite sort_keys_perm, elem_of_remove_dups. Qed.

Lemma sum_list_map_plus {A} (a b : A → nat) (l : list A) :
  sum_list (map (λ k, a k + b k) l) = sum_list (map a l) + sum_list (map b l).
Proof. induction l as [|x l IH]; simpl; [done|]. rewrite IH. lia. Qed.

Lemma sum_indicator_absent (x : scalar) ks :
  x ∉ ks → sum_list (map (λ k, if bool_decide (x = k) then 1 else 0) ks) = 0.
Proof.
  induction ks as [|k ks IH]; simpl; [done|].
  intros [Hne Hx]%not_elem_of_cons.
  by rewrite bool_decide_eq_false_2, IH.
Qed.

Lemma sum_indicator_present (x : scalar) ks :
  NoDup ks → x ∈ ks →
  sum_list (map (λ k, if bool_decide (x = k) then 1 else 0) ks) = 1.
Proof.
  induction 1 as [|k ks Hk Hnd IH]; [by intros ?%elem_of_nil|].
  simpl. intros [->|Hx]%elem_of_cons.
  - by rewrite bool_decide_eq_true_2, sum_indicator_absent.
  - rewrite bool_decide_eq_false_2, IH; [done..|]. by intros ->.
Qed.

Lemma count_key_cons k x keys :
  count_key k (x :: keys)
  = (if bool_decide (x = k) then 1 else 0) + count_key k keys.
Proof. unfold count_key. simpl. by destruct (bool_decide (x = k)). Qed.

(** Over distinct keys that cover the column, the counts add up to the
    number of rows. *)
Lemma count_key_sum ks keys :
  NoDup ks → (∀ x, x ∈ keys → x ∈ ks) →
  sum_list (map (λ k, count_key k keys) ks) = length keys.
Proof.
  intros Hnd. induction keys as [|x keys IH]; intros Hin.
  - clear. induction ks as [|k ks IHk]; simpl; done.
  - rewrite (map_ext (λ k, count_key k (x :: keys))
               (λ k, (if bool_decide (x = k) then 1 else 0) + count_key k keys))
      by (intros; apply count_key_cons).
    rewrite sum_list_map_plus, sum_indicator_present, IH; [done| |done|].
    + intros y Hy. apply Hin. by right.
    + apply Hin. left.
Qed.

Lemma groupby_size_keys dropna keys :
  map fst (groupby_size dropna keys) = group_keys dropna keys.
Proof.
  unfold groupby_size. rewrite map_map. simpl. apply map_id.
Qed.

Lemma groupby_size_total keys :
  sum_list (map snd (groupby_size false keys)) = length keys.
Proof.
  unfold groupby_size. rewrite map_map. simpl.
  apply count_key_sum; [apply group_keys_NoDup|].
  intros x Hx. by apply elem_of_group_keys.
Qed.

Lemma groupby_size_length keys (universe : list scalar) :
  (∀ k, k ∈ keys → k ∈ universe) →
  (length (groupby_size false keys) ≤ length universe)%nat.
Proof.
  intros Hin. unfold groupby_size. rewrite length_map.
  apply submseteq_length, NoDup_submseteq; [apply group_keys_NoDup|].
  intros k Hk. by apply Hin, (proj1 (elem_of_group_keys k keys)).
Qed.

(** *** Reading the silver file *)

Lemma read_silver_ok (f : DataFrame scalar) :
  columns f ≠ [] → ∃ df, read_silver f = Ok df ∧ nrows df = nrows f.
Proof.
  unfold read_silver. destruct (columns f); [done|]. intros _.
  eexists. split; [done|]. unfold nrows. simpl. apply length_map.
Qed.

(** *** The mean and its summary value *)

Lemma mean_skipna_all_nan n : mean_skipna (replicate n NaN) = NaN.
Proof.
  unfold mean_skipna.
  assert (List.filter (λ v, negb (is_nan v)) (replicate n NaN) = []) as ->; [|done].
  induction n as [|n IH]; simpl; done.
Qed.

Lemma summary_avg_defined q :
  Qeq_bool q 0 = false → summary_avg (Fin q) = round4 (Fin q).
Proof. unfold summary_avg, py_or. simpl. by intros ->. Qed.

Lemma summary_avg_zero q :
  Qeq_bool q 0 = true → summary_avg (Fin q) = Fin 0.
Proof. unfold summary_avg, py_or. simpl. by intros ->. Qed.

(** Claim C2 (fails on the code): the summary value of an agent whose
    mean response time is undefined.  [nan or 0.0] is [nan], since NaN
    is true in Python, and rounding keeps it: the value recorded is NaN
    and not 0.0.  On a silver table with one ticket of agent [a1] and
    no response time, the mean of [a1] is NaN and so is the value of
    its summary row. *)
Theorem undefined_mean_recorded_as_nan :
  summary_avg NaN = NaN
  ∧ summary_avg NaN ≠ Fin 0
  ∧ (∀ n, mean_skipna (replicate n NaN) = NaN)
  ∧ entries (avg_response_time_per_agent (gold_tables unanswered))
    = [(Str "a1", NaN)]
  ∧ gold_summary (gold_tables unanswered)
    = [mkRow "tickets_per_agent" (Str "a1") (IntV 1);
       mkRow "tickets_by_sentiment" (Str "neutral") (IntV 1);
       mkRow "avg_response_time_per_agent" (Str "a1") (FloatV NaN)].
Proof.
  split; [reflexivity|]. split; [discriminate|].
  split; [apply mean_skipna_all_nan|]. split; reflexivity.
Qed.

(** Claim C4: the sentiment label of a score.  At least 0.5 gives
    "positive", at most -0.5 gives "negative", and everything else,
    0.0, a missing score and an unparseable score included, gives
    "neutral"; 0.5 and -0.5 themselves are labelled. *)
Theorem sentiment_label_thresholds :
  (∀ q, (1 # 2 <= q)%Q → sentiment_label (AFloat (Fin q)) = "positive")
  ∧ (∀ q, (q <= - 1 # 2)%Q → sentiment_label (AFloat (Fin q)) = "negative")
  ∧ (∀ q, (- 1 # 2 < q)%Q → (q < 1 # 2)%Q →
       sentiment_label (AFloat (Fin q)) = "neutral")
  ∧ sentiment_label (AFloat PosInf) = "positive"
  ∧ sentiment_label (AFloat NegInf) = "negative"
  ∧ sentiment_label (AFloat NaN) = "neutral"
  ∧ sentiment_label ANone = "neutral"
  ∧ (∀ s, parse_float s = None → sentiment_label (AStr s) = "neutral")
  ∧ sentiment_label (AFloat (Fin (1 # 2))) = "positive"
  ∧ sentiment_label (AFloat (Fin (- 1 # 2))) = "negative"
  ∧ sentiment_label (AFloat (Fin 0)) = "neutral"
  ∧ to_numeric Null = NaN
  ∧ (∀ s, parse_float s = None → to_numeric (Str s) = NaN)
  ∧ (∀ df, sentiment_labels df
           = map (λ v, sentiment_label (AFloat v)) (sentiment_score_val df)).
Proof.
  split_and!; try reflexivity.
  - intros q Hq. rewrite sentiment_label_float. simpl.
    by rewrite (proj2 (Qle_bool_iff _ _) Hq).
  - intros q Hq. rewrite sentiment_label_float. simpl.
    rewrite (proj2 (Qle_bool_iff _ _) Hq).
    destruct (Qle_bool (1 # 2) q) eqn:Hp; [|done].
    apply Qle_bool_iff in Hp. unfold Qle in *. simpl in *. lia.
  - intros q Hlo Hhi. rewrite sentiment_label_float. simpl.
    destruct (Qle_bool (1 # 2) q) eqn:Hp.
    { apply Qle_bool_iff in Hp. unfold Qle, Qlt in *. simpl in *. lia. }
    destruct (Qle_bool q (- 1 # 2)) eqn:Hn; [|done].
    apply Qle_bool_iff in Hn. unfold Qle, Qlt in *. simpl in *. lia.
  - intros s Hs. unfold sentiment_label. simpl. by rewrite Hs.
  - intros s Hs. simpl. by rewrite Hs.
Qed.

(** Claim C7: the summary table is the concatenation, in the fixed
    order [tickets_per_agent], [tickets_by_status],
    [tickets_by_sentiment], [avg_response_time_per_agent], of the rows
    of the four aggregate tables, each under its metric name and in
    table order; so it has as many rows as the four tables together,
    none dropped and none repeated. *)
Theorem summary_is_concatenation df :
  let g := gold_tables df in
  map (λ r, (metric r, key r, val r)) (gold_summary g)
  = map (λ e, ("tickets_per_agent", fst e, IntV (Z.of_nat (snd e))))
        (entries (tickets_per_agent g))
    ++ map (λ e, ("tickets_by_status", fst e, IntV (Z.of_nat (snd e))))
           (entries (tickets_by_status g))
    ++ map (λ e, ("tickets_by_sentiment", fst e, IntV (Z.of_nat (snd e))))
           (entries (tickets_by_sentiment g))
    ++ map (λ e, ("avg_response_time_per_agent", fst e, FloatV (summary_avg (snd e))))
           (entries (avg_response_time_per_agent g))
  ∧ length (gold_summary g)
    = (length (entries (tickets_per_agent g))
       + length (entries (tickets_by_status g))
       + length (entries (tickets_by_sentiment g))
       + length (entries (avg_response_time_per_agent g)))%nat.
Proof.
  cbv zeta. unfold gold_tables.
  cbn [gold_summary tickets_per_agent tickets_by_status
       tickets_by_sentiment avg_response_time_per_agent].
  unfold summary_rows, count_rows, avg_rows. split.
  - by rewrite !map_app, !map_map.
  - rewrite !length_app, !length_map. lia.
Qed.

(** Claim C10: the labelling is total.  Every row of the silver input
    gets one label among "positive", "neutral" and "negative", so the
    [tickets_by_sentiment] table has at most three rows, each keyed by
    one of the three labels, and its counts add up to the number of
    rows of the silver input. *)
Theorem sentiment_labeling_total (f : DataFrame scalar) :
  columns f ≠ [] →
  ∃ df g,
    read_silver f = Ok df
    ∧ gold_flow (Some f) = Ok (Some g)
    ∧ (∀ v, sentiment_label v ∈ labels)
    ∧ length (sentiment_labels df) = nrows f
    ∧ Forall (λ l, l ∈ labels) (sentiment_labels df)
    ∧ (length (entries (tickets_by_sentiment g)) ≤ 3)%nat
    ∧ Forall (λ e, ∃ l, fst e = Str l ∧ l ∈ labels)
             (entries (tickets_by_sentiment g))
    ∧ NoDup (map fst (entries (tickets_by_sentiment g)))
    ∧ total (tickets_by_sentiment g) = nrows f.
Proof.
  intros Hcols. destruct (read_silver_ok f Hcols) as (df & Hread & Hn).
  exists df, (gold_tables df).
  assert (∀ k, k ∈ map Str (sentiment_labels df) → k ∈ map Str labels) as Hkeys.
  { intros k (l & -> & Hl)%list_elem_of_fmap. apply list_elem_of_fmap.
    exists l. split; [done|].
    exact (proj1 (Forall_forall _ _) (sentiment_labels_in df) l Hl). }
  split_and!.
  - done.
  - unfold gold_flow. by rewrite Hread.
  - apply sentiment_label_in.
  - by rewrite length_sentiment_labels.
  - apply sentiment_labels_in.
  - simpl. apply (groupby_size_length _ (map Str labels)), Hkeys.
  - simpl. apply Forall_forall. intros e He.
    assert (fst e ∈ map Str (sentiment_labels df)) as Hk.
    { apply (elem_of_group_keys (fst e)). rewrite <-groupby_size_keys.
      apply list_elem_of_fmap. by exists e. }
    apply Hkeys, list_elem_of_fmap in Hk as (l & ? & ?). by exists l.
  - simpl. rewrite groupby_size_keys. apply group_keys_NoDup.
  - unfold total. simpl. rewrite groupby_size_total.
    by rewrite length_map, length_sentiment_labels.
Qed.

End Facts.

End GoldFacts.

(** ** The whole run *)

Module PipelineFacts.
Import Frame Lib Pipeline.

Section Facts.
Context `{Pandas}.

(** A flow whose input file is really absent returns early and writes
    nothing. *)
Lemma flows_skip_missing_input :
  Silver.silver_flow None = Ok None ∧ Gold.gold_flow None = Ok None.
Proof. done. Qed.

(** Claim C3 (fails on the code): the run with no input file at all.
    The bronze stage does produce the empty table without columns, and
    writes it; the silver stage therefore finds its input file, and
    reading a file without a header line raises [EmptyDataError].
    Nothing handles it: the run ends there, with no silver file, and
    the gold stage is never reached. *)
Theorem empty_input_run_crashes :
  Bronze.bronze_table no_raw = empty_frame
  ∧ bronze_file (bronze_step (fresh_store no_raw)) = Some empty_frame
  ∧ Silver.silver_flow (Some (Bronze.bronze_table no_raw)) = Raise EmptyDataError
  ∧ run_all (fresh_store no_raw)
    = Crashed EmptyDataError (mkStore no_raw (Some empty_frame) None None).
Proof. split_and!; reflexivity. Qed.

End Facts.

End PipelineFacts.

(** ** The theorems at concrete inputs *)

Module Checks.
Import Snake Frame Lib FrameFacts.

Example to_snake_examples :
  _to_snake "Customer ID" = "customer_id"
  ∧ _to_snake "customerId" = "customer_id"
  ∧ _to_snake "CamelCase" = "camel_case"
  ∧ _to_snake "_src" = "src"
  ∧ _to_snake "HTTPResponseCode2XX--a  b__c_" = "http_response_code2_xx_a_b_c"
  ∧ _to_snake_opt None = "".
Proof. split_and!; reflexivity. Qed.

Example silver_two_tickets :
  Silver.silver_flow (H := example_pandas) (Some Silver.two_tickets)
  = Ok (Some (mkDF ["ticket_id"; "first_response_at"; "resolved_at";
                    "response_time_hours"]
                [[Str "T1"; Time 0; Time 7200000000000; Num 2];
                 [Str "T2"; Null; Time 7200000000000; Null]])).
Proof. reflexivity. Qed.

(** Three customers and two orders, no event log: five bronze rows under
    the union of the labels, five silver rows without a response time,
    and "neutral" as the only sentiment. *)
Example run_two_sources :
  match Pipeline.run_all (H := example_pandas)
          (Pipeline.fresh_store Bronze.two_sources) with
  | Pipeline.Finished st =>
      Some (columns <$> Pipeline.bronze_file st,
            nrows <$> Pipeline.bronze_file st,
            columns <$> Pipeline.silver_file st,
            (λ f, column f "response_time_hours") <$> Pipeline.silver_file st,
            (λ g, (Gold.entries (Gold.tickets_per_agent g),
                   Gold.entries (Gold.tickets_by_status g),
                   Gold.entries (Gold.tickets_by_sentiment g),
                   Gold.entries (Gold.avg_response_time_per_agent g)))
              <$> Pipeline.gold_files st)
  | Pipeline.Crashed _ _ => None
  end
  = Some (Some ["customer_id"; "name"; "src"; "order_id"],
          Some 5,
          Some ["customer_id"; "name"; "src"; "order_id"; "response_time_hours"],
          Some [Null; Null; Null; Null; Null],
          Some ([], [], [(Str "neutral", 5)], [])).
Proof. vm_compute. reflexivity. Qed.

Lemma bronze_union_column_commutative_witness :
  column_set (Bronze.bronze_combined [Notions.left_frame; Notions.right_frame]
                Notions.ticket_log)
  = column_set (Bronze.bronze_combined [Notions.right_frame; Notions.left_frame]
                  Notions.ticket_log)
  ∧ columns (Bronze.bronze_combined [Notions.left_frame; Notions.right_frame]
               Notions.ticket_log)
    = ["a"; "b"; "ticket_id"; "sentiment"]
  ∧ columns (Bronze.bronze_combined [Notions.right_frame; Notions.left_frame]
               Notions.ticket_log)
    = ["b"; "a"; "ticket_id"; "sentiment"].
Proof.
  split; [|split; reflexivity].
  apply (BronzeFacts.bronze_union_column_commutative
           Notions.left_frame Notions.right_frame).
  - apply (bool_decide_unpack _). vm_compute. exact I.
  - apply (bool_decide_unpack _). vm_compute. exact I.
  - apply (bool_decide_unpack _). vm_compute. exact I.
Defined.


Lemma sentiment_label_thresholds_witness :
  Gold.sentiment_label (H := example_pandas) (Gold.AFloat (Fin (9 # 10))) = "positive"
  ∧ Gold.sentiment_label (H := example_pandas) (Gold.AFloat (Fin (- 9 # 10))) = "negative"
  ∧ Gold.sentiment_label (H := example_pandas) (Gold.AFloat (Fin (1 # 10))) = "neutral"
  ∧ Gold.sentiment_label (H := example_pandas) (Gold.AStr "n/a") = "neutral"
  ∧ Gold.to_numeric (H := example_pandas) (Str "n/a") = NaN.
Proof.
  destruct (GoldFacts.sentiment_label_thresholds (H := example_pandas))
    as (Hpos & Hneg & Hmid & _ & _ & _ & _ & Hstr & _ & _ & _ & _ & Hnum & _).
  split; [apply Hpos; discriminate|].
  split; [apply Hneg; discriminate|].
  split; [apply Hmid; reflexivity|].
  split; [apply Hstr; reflexivity|].
  apply Hnum; reflexivity.
Defined.

Lemma sentiment_labeling_total_witness :
  ∃ g,
    Gold.gold_flow (H := example_pandas) (Some Gold.unanswered) = Ok (Some g)
    ∧ Gold.total (Gold.tickets_by_sentiment g) = 1.
Proof.
  destruct (GoldFacts.sentiment_labeling_total (H := example_pandas) Gold.unanswered)
    as (df & g & _ & Hflow & _ & _ & _ & _ & _ & _ & Htotal).
  - discriminate.
  - exists g. split; [exact Hflow|]. exact Htotal.
Defined.

End Checks.

(** ** Concatenation and column assignment *)

Module ConcatFacts.
Import Frame FrameFacts.

Section Facts.
Context {C : Type} `{Nullable C}.
Implicit Types (df : DataFrame C) (dfs : list (DataFrame C)).

Lemma get_cell_reindex (old new : list string) (r : list C) c :
  c ∈ new → get_cell new (reindex old new r) c = get_cell old r c.
Proof.
  intros [i Hi]%col_index_elem_of. unfold get_cell at 1, reindex.
  rewrite Hi. simpl. apply col_index_Some in Hi.
  change (map ?f ?l) with (f <$> l). by rewrite list_lookup_fmap, Hi.
Qed.

Lemma get_cell_absent (cols : list string) (r : list C) c :
  c ∉ cols → get_cell cols r c = null.
Proof. intros Hc%col_index_None. unfold get_cell. by rewrite Hc. Qed.

Lemma elem_of_concat_columns_l (x : string) df dfs :
  x ∈ columns df → x ∈ columns (concat (df :: dfs)).
Proof. intros Hx. apply elem_of_concat_columns. exists df. split; [left|done]. Qed.

(** Concatenating frames with distinct labels: a row of a frame is in
    the concatenation, re-indexed, and reads the same under every label,
    its own cell where the frame has the label, null where it has not. *)
Theorem concat_keeps_cells dfs df (r : list C) c :
  (∀ d, d ∈ dfs → NoDup (columns d)) → df ∈ dfs → r ∈ rows df →
  reindex (columns df) (columns (concat dfs)) r ∈ rows (concat dfs)
  ∧ get_cell (columns (concat dfs)) (reindex (columns df) (columns (concat dfs)) r) c
    = get_cell (columns df) r c.
Proof.
  intros _ Hdf Hr. split.
  - unfold concat at 2. simpl. apply list_elem_of_bind. exists df. split; [|done].
    apply list_elem_of_fmap. by exists r.
  - destruct (decide (c ∈ columns (concat dfs))) as [Hc|Hc].
    + by apply get_cell_reindex.
    + rewrite !get_cell_absent; [done| |done].
      intros Hin. apply Hc, elem_of_concat_columns. by exists df.
Qed.

Lemma nrows_concat dfs : nrows (concat dfs) = sum_list (map nrows dfs).
Proof.
  unfold nrows, concat. simpl. generalize (concat_columns dfs). intros cols.
  induction dfs as [|d dfs IH]; [done|].
  rewrite bind_cons, length_app, length_map, IH. done.
Qed.

Lemma fold_union_prefix dfs (acc : list string) :
  acc `prefix_of` fold_left (λ a df, union_columns a (columns df)) dfs acc.
Proof.
  revert acc. induction dfs as [|d dfs IH]; intros acc; simpl; [done|].
  etrans; [|apply IH]. unfold union_columns. by apply prefix_app_r.
Qed.

Lemma union_columns_nil (new : list string) : union_columns [] new = new.
Proof.
  unfold union_columns. simpl. induction new as [|x new IH]; [done|].
  rewrite filter_cons_True; [by rewrite IH|]. apply not_elem_of_nil.
Qed.

Lemma concat_columns_prefix df dfs :
  columns df `prefix_of` columns (concat (df :: dfs)).
Proof.
  unfold concat, concat_columns. simpl. rewrite union_columns_nil.
  apply fold_union_prefix.
Qed.

Lemma NoDup_union_columns (acc new : list string) :
  NoDup acc → NoDup new → NoDup (union_columns acc new).
Proof.
  intros Ha Hn. unfold union_columns. apply NoDup_app. split; [done|]. split.
  - intros x Hx [Hnot _]%list_elem_of_filter. done.
  - by apply NoDup_filter.
Qed.

Lemma NoDup_concat_columns dfs :
  (∀ df, df ∈ dfs → NoDup (columns df)) → NoDup (columns (concat dfs)).
Proof.
  unfold concat, concat_columns. simpl.
  assert (NoDup ([] : list string)) as Hacc by constructor.
  revert Hacc. generalize ([] : list string).
  induction dfs as [|d dfs IH]; intros acc Hacc Hall; simpl; [done|].
  apply IH.
  - apply NoDup_union_columns; [done|]. apply Hall. left.
  - intros df Hdf. apply Hall. by right.
Qed.

(** The labels of a concatenation of frames with distinct labels are the
    labels of the frames, each once: those of the first frame first, in
    their order. *)
Theorem concat_columns_order df dfs :
  (∀ d, d ∈ df :: dfs → NoDup (columns d)) →
  columns df `prefix_of` columns (concat (df :: dfs))
  ∧ NoDup (columns (concat (df :: dfs)))
  ∧ ∀ x, x ∈ columns (concat (df :: dfs)) ↔ ∃ d, d ∈ df :: dfs ∧ x ∈ columns d.
Proof.
  intros Hnd. split; [apply concat_columns_prefix|].
  split; [by apply NoDup_concat_columns|]. intros x. apply elem_of_concat_columns.
Qed.

Lemma column_zip_put_same (cols : list string) c (rs : list (list C)) vals :
  Forall (λ r, length r = length cols) rs → length vals = length rs →
  map (λ r, get_cell (put_label c cols) r c) (zip_with (put_cell cols c) rs vals)
  = vals.
Proof.
  intros Hwf. revert vals. induction Hwf as [|r rs Hr _ IH]; intros [|v vals]; simpl;
    try done.
  intros [= Hl]. by rewrite get_put_same, IH.
Qed.

Lemma column_zip_put_other (cols : list string) c c' (rs : list (list C)) vals :
  c' ≠ c → Forall (λ r, length r = length cols) rs → length vals = length rs →
  map (λ r, get_cell (put_label c cols) r c') (zip_with (put_cell cols c) rs vals)
  = map (λ r, get_cell cols r c') rs.
Proof.
  intros Hne Hwf. revert vals.
  induction Hwf as [|r rs Hr _ IH]; intros [|v vals]; simpl; try done.
  intros [= Hl]. by rewrite get_put_other, IH.
Qed.

(** After [df[c] = vals] on a rectangular frame, with one value per row,
    [df[c]] is [vals] and every other column is what it was. *)
Lemma set_column_read_back df c vals :
  wf df → length vals = nrows df →
  column (set_column df c vals) c = vals
  ∧ ∀ c', c' ≠ c → column (set_column df c vals) c' = column df c'.
Proof.
  intros Hwf Hl. unfold column, set_column. simpl. split.
  - by apply column_zip_put_same.
  - intros c' Hne. by apply column_zip_put_other.
Qed.

End Facts.

End ConcatFacts.

(** ** Bronze flow: sources, provenance, rows *)

Module BronzeMore.
Import Snake Frame Bronze Notions FrameFacts ConcatFacts BronzeFacts.

Lemma bind_ext_in {A B} (f g : A → list B) (l : list A) :
  (∀ x, x ∈ l → f x = g x) → l ≫= f = l ≫= g.
Proof.
  induction l as [|x l IH]; intros Hfg; [done|].
  rewrite !bind_cons, (Hfg x), IH; [done| |left].
  intros y Hy. apply Hfg. by right.
Qed.

(** A raw file whose read fails contributes what an absent file does:
    the bronze table is the same, whichever tabular files or event log
    are unreadable rather than missing. *)
Theorem read_failure_as_absence names csv j :
  bronze_table_of names (mkRaw (λ n, as_missing (csv n)) (as_missing j))
  = bronze_table_of names (mkRaw csv j).
Proof.
  unfold bronze_table_of. simpl. f_equal.
  - unfold csv_dfs_of. apply bind_ext_in. intros n _.
    unfold read_csv_source. by destruct (csv n).
  - by destruct j.
Qed.

Lemma src_label_fresh (cols : list string) : "_src" ∉ map _to_snake cols.
Proof.
  intros (y & Hy & _)%list_elem_of_fmap.
  pose proof (SnakeFacts.to_snake_head y) as Hh. by rewrite <-Hy in Hh.
Qed.

Lemma read_csv_source_loaded src fname df :
  src fname = Loaded df →
  read_csv_source src fname
  = [mkDF (map _to_snake (columns df) ++ ["_src"])
          (map (λ r, r ++ [Atom (Str (remove_csv fname))]) (rows df))].
Proof.
  intros Hsrc. unfold read_csv_source. rewrite Hsrc. f_equal.
  unfold set_column_const, nrows. rewrite replicate_map_const.
  rewrite (set_column_rowwise (normalize_df_columns df) "_src").
  unfold normalize_df_columns, put_label, put_cell. simpl.
  by rewrite (proj2 (col_index_None "_src" _) (src_label_fresh (columns df))).
Qed.

(** The frame appended for a tabular file that was read: the normalised
    labels followed by [_src], and every row followed by the file name
    without [.csv]. *)
Theorem tabular_rows_tagged src fname df :
  src fname = Loaded df →
  read_csv_source src fname
  = [mkDF (map _to_snake (columns df) ++ ["_src"])
          (map (λ r, r ++ [Atom (Str (remove_csv fname))]) (rows df))].
Proof. apply read_csv_source_loaded. Qed.

Lemma read_csv_source_shape src fname df' :
  df' ∈ read_csv_source src fname →
  columns df' ≠ [] ∧ nrows df' = loaded_rows (src fname).
Proof.
  destruct (src fname) as [| |df] eqn:Hsrc;
    try (unfold read_csv_source; rewrite Hsrc; by intros ?%elem_of_nil).
  rewrite (read_csv_source_loaded src fname df Hsrc).
  intros ->%list_elem_of_singleton. simpl. split.
  - by destruct (map _to_snake (columns df)).
  - unfold nrows. simpl. apply length_map.
Qed.

Lemma csv_dfs_columns src names df' :
  df' ∈ csv_dfs_of src names → columns df' ≠ [].
Proof.
  unfold csv_dfs_of. intros (n & Hdf & _)%list_elem_of_bind.
  by apply read_csv_source_shape in Hdf as [? _].
Qed.

Lemma csv_dfs_nrows src names :
  sum_list (map nrows (csv_dfs_of src names))
  = sum_list (map (λ n, loaded_rows (src n)) names).
Proof.
  unfold csv_dfs_of. induction names as [|n names IH]; [done|].
  rewrite bind_cons, map_app, sum_list_with_app, IH. simpl. f_equal.
  destruct (src n) as [| |df] eqn:Hsrc;
    try (unfold read_csv_source; by rewrite Hsrc).
  rewrite (read_csv_source_loaded src n df Hsrc). simpl. unfold nrows. simpl.
  rewrite length_map. lia.
Qed.

Lemma nrows_read_jsonl j : nrows (read_jsonl j) = loaded_rows j.
Proof.
  destruct j as [| |df]; simpl; try done.
  destruct (has_column _ _); [|done].
  rewrite nrows_set_column; [done|]. by rewrite length_map, length_column.
Qed.

Lemma columns_read_jsonl_nil df :
  columns (read_jsonl (Loaded df)) = [] → columns df = [].
Proof.
  unfold read_jsonl. destruct (has_column _ _) eqn:Hs.
  - apply has_column_true in Hs. intros Hnil.
    assert ("sentiment" ∈ columns (set_column (normalize_df_columns df)
              "sentiment_score"
              (map score_of (column (normalize_df_columns df) "sentiment")))) as Hin
      by (apply elem_of_put_label; by left).
    rewrite Hnil in Hin. by apply elem_of_nil in Hin.
  - unfold normalize_df_columns. simpl. by destruct (columns df).
Qed.

Lemma nrows_normalize {C} (df : DataFrame C) : nrows (normalize_df_columns df) = nrows df.
Proof. done. Qed.

Lemma sum_nrows_zero (dfs : list (DataFrame pyval)) :
  (∀ df, df ∈ dfs → rows df = []) → sum_list (map nrows dfs) = 0.
Proof.
  induction dfs as [|d dfs IH]; intros Hall; simpl; [done|].
  unfold nrows at 1. rewrite (Hall d), IH; [done| |left].
  intros df Hdf. apply Hall. by right.
Qed.

(** No row is lost or invented: the bronze table has the rows of every
    tabular file that was read plus the rows of the event log, as long as
    the event-log frame has a column or no row. *)
Theorem bronze_rows_conserved names raw :
  distinct_labels raw →
  (∀ df, raw_jsonl raw = Loaded df → columns df ≠ [] ∨ rows df = []) →
  nrows (bronze_table_of names raw)
  = sum_list (map (λ n, loaded_rows (raw_csv raw n)) names)
    + loaded_rows (raw_jsonl raw).
Proof.
  intros _ Hj. unfold bronze_table_of, bronze_combined.
  rewrite nrows_normalize, <-csv_dfs_nrows, <-nrows_read_jsonl.
  set (L := csv_dfs_of (raw_csv raw) names). set (J := read_jsonl (raw_jsonl raw)).
  assert (is_empty J = true → nrows J = 0) as HJ.
  { intros [Hc|Hr]%is_empty_true; [|unfold nrows; by rewrite Hr].
    unfold J in *. destruct (raw_jsonl raw) as [| |df] eqn:Hraw; try done.
    apply columns_read_jsonl_nil in Hc.
    destruct (Hj df eq_refl) as [?|Hr]; [done|].
    rewrite nrows_read_jsonl. simpl. by rewrite Hr. }
  assert (nrows (combine_csvs L) = sum_list (map nrows L)) as HL.
  { destruct L; [done|apply nrows_concat]. }
  assert (∀ d, d ∈ L → columns d ≠ []) as HLc
    by (intros d; apply csv_dfs_columns).
  clearbody L J. unfold union_by_columns.
  destruct (is_empty (combine_csvs L)) eqn:HeL; cbn [negb andb].
  - apply is_empty_combine_csvs in HeL as [Hc|Hr].
    + destruct L as [|d L]; [done|]. destruct (HLc d); [left|]. apply Hc. left.
    + by rewrite (sum_nrows_zero L Hr).
  - destruct (is_empty J) eqn:HeJ; cbn [negb].
    + rewrite (HJ eq_refl), HL. lia.
    + rewrite nrows_concat. simpl. rewrite HL. lia.
Qed.

(** Tabular files that have a header and no row leave no trace: the
    bronze table is the event-log frame alone, without their labels. *)
Theorem header_only_sources_dropped names raw :
  distinct_labels raw →
  (∀ n df, n ∈ names → raw_csv raw n = Loaded df → rows df = []) →
  bronze_table_of names raw = normalize_df_columns (read_jsonl (raw_jsonl raw)).
Proof.
  intros _ Hrows. unfold bronze_table_of, bronze_combined, union_by_columns.
  assert (is_empty (combine_csvs (csv_dfs_of (raw_csv raw) names)) = true) as ->;
    [|done].
  apply is_empty_combine_csvs. right. intros df' Hdf.
  unfold csv_dfs_of in Hdf. apply list_elem_of_bind in Hdf as (n & Hdf & Hn).
  destruct (raw_csv raw n) as [| |df] eqn:Hsrc;
    try (unfold read_csv_source in Hdf; rewrite Hsrc in Hdf; by apply elem_of_nil in Hdf).
  rewrite (read_csv_source_loaded (raw_csv raw) n df Hsrc) in Hdf.
  apply list_elem_of_singleton in Hdf as ->. simpl.
  by rewrite (Hrows n df Hn Hsrc).
Qed.

(** The bronze table is rectangular, every row with one cell per label,
    when the event-log frame read is. *)
Theorem bronze_table_rectangular (raw : RawData) :
  distinct_labels raw → (∀ df, raw_jsonl raw = Loaded df → wf df) →
  wf (bronze_table raw).
Proof. intros _. apply wf_bronze_table. Qed.

Lemma score_of_present (kv : list (string * pyval)) v :
  NoDup (map fst kv) → ("score", v) ∈ kv → score_of (Dict kv) = v.
Proof.
  unfold score_of. induction kv as [|[k w] kv IH]; [by intros _ ?%elem_of_nil|].
  cbn [map fst]. intros [Hnot Hnd]%NoDup_cons Hin. cbn [List.find fst].
  destruct (String.eqb k "score") eqn:Hk.
  - apply String.eqb_eq in Hk as ->. apply elem_of_cons in Hin as [[= ->]|Hin]; [done|].
    destruct Hnot. apply list_elem_of_fmap. by exists ("score", v).
  - apply elem_of_cons in Hin as [[= <- _]|Hin]; [done|]. by apply IH.
Qed.

Lemma score_of_absent (kv : list (string * pyval)) :
  "score" ∉ map fst kv → score_of (Dict kv) = Atom Null.
Proof.
  unfold score_of. induction kv as [|[k w] kv IH]; [done|].
  cbn [map fst List.find]. intros [Hne Hnot]%not_elem_of_cons.
  rewrite (proj2 (String.eqb_neq k "score")) by done. by apply IH.
Qed.

(** The event log: when the normalised labels include [sentiment], the
    frame gets a column [sentiment_score] holding, row by row, what
    [x.get("score")] gives on the sentiment object: the value under the
    key ["score"], null when the object has no such key, and null where
    the sentiment is not an object. *)
Theorem sentiment_flattened df :
  wf df → NoDup (map _to_snake (columns df)) →
  "sentiment" ∈ map _to_snake (columns df) →
  let out := read_jsonl (Loaded df) in
  "sentiment_score" ∈ columns out
  ∧ nrows out = nrows df
  ∧ (∀ r, r ∈ rows out →
       get_cell (columns out) r "sentiment_score"
       = score_of (get_cell (columns out) r "sentiment"))
  ∧ (∀ kv v, NoDup (map fst kv) → ("score", v) ∈ kv → score_of (Dict kv) = v)
  ∧ (∀ kv, "score" ∉ map fst kv → score_of (Dict kv) = Atom Null)
  ∧ (∀ a, score_of (Atom a) = Atom Null)
  ∧ (∀ l, score_of (Arr l) = Atom Null).
Proof.
  intros Hwf _ Hs. cbv zeta. split_and!; try done.
  - simpl. rewrite (proj2 (has_column_true "sentiment" (normalize_df_columns df)) Hs).
    apply elem_of_put_label. by right.
  - apply nrows_read_jsonl.
  - simpl. rewrite (proj2 (has_column_true "sentiment" (normalize_df_columns df)) Hs).
    unfold column. rewrite map_map.
    rewrite (set_column_rowwise (normalize_df_columns df) "sentiment_score"
               (λ r, score_of (get_cell (columns (normalize_df_columns df)) r "sentiment"))).
    simpl. intros r (r0 & -> & Hr0)%list_elem_of_fmap.
    assert (length r0 = length (map _to_snake (columns df))) as Hlen.
    { rewrite length_map. exact (proj1 (Forall_forall _ _) Hwf r0 Hr0). }
    rewrite get_put_same by done. by rewrite get_put_other.
  - apply score_of_present.
  - apply score_of_absent.
Qed.

End BronzeMore.

(** ** Silver flow: what enrichment and filtering do to a row *)

Module SilverMore.
Import Frame Lib Silver Notions FrameFacts ConcatFacts SilverFacts.




Lemma get_cell_map_csv `{Pandas} (cols : list string) (b : list pyval) c :
  get_cell cols (map csv_cell b) c = csv_cell (get_cell cols b c).
Proof.
  unfold get_cell. destruct (col_index c cols) as [i|]; simpl; [|done].
  change (map ?f ?l) with (f <$> l). rewrite list_lookup_fmap.
  by destruct (b !! i).
Qed.


Section Facts.
Context `{Pandas}.
Implicit Types (df : DataFrame scalar).








Lemma silver_flow_ok (f : DataFrame pyval) :
  columns f ≠ [] →
  silver_flow (Some f)
  = Ok (Some (silver_table (mkDF (columns f) (map (map csv_cell) (rows f))))).
Proof. intros Hc. unfold silver_flow. by rewrite read_bronze_ok. Qed.










Lemma ticket_id_not_parsed :
  ("ticket_id" ∉ timestamp_columns) ∧ ("ticket_id" ≠ "response_time_hours").
Proof. split; [|done]. apply (bool_decide_unpack _). vm_compute. exact I. Qed.





End Facts.

End SilverMore.

(** ** Silver flow: the derived response time *)

Module ResponseTime.
Import Frame Lib Float64 Silver Notions FrameFacts ConcatFacts SilverFacts SilverMore
  Float64Facts.

(** Filtering two lists that go together position by position. *)
Lemma filter_parallel {A B D} (u : A → D) (g : B → D) (keep : A → bool)
    (k : B → bool) (L : list A) (R : list B) :
  map u L = map g R → map keep L = map k R →
  map u (List.filter keep L) = map g (List.filter k R).
Proof.
  revert R. induction L as [|a L IH]; intros [|b R]; try done. simpl.
  intros [= Hu HuL] [= Hk HkL]. rewrite <-Hk.
  destruct (keep a); simpl; [rewrite Hu; f_equal|]; by apply IH.
Qed.

Section Facts.
Context `{Pandas}.
Implicit Types (df : DataFrame scalar) (f : DataFrame pyval).

(** *** One column through the timestamp loop *)

Lemma column_parse_column_same df c :
  wf df → c ∈ columns df →
  column (parse_column df c) c = map (parse_cell (column df c)) (column df c).
Proof.
  intros Hwf Hc. unfold parse_column.
  rewrite (proj2 (has_column_true c df) Hc).
  apply set_column_read_back; [done|]. by rewrite length_map, length_column.
Qed.

Lemma column_parse_column_other df c c' :
  wf df → c' ≠ c → column (parse_column df c) c' = column df c'.
Proof.
  intros Hwf Hne. unfold parse_column. destruct (has_column c df); [|done].
  apply set_column_read_back; [done| |done]. by rewrite length_map, length_column.
Qed.

Lemma column_parse_fold_other cs df c' :
  wf df → c' ∉ cs → column (fold_left parse_column cs df) c' = column df c'.
Proof.
  revert df. induction cs as [|c cs IH]; intros df Hwf Hnot; [done|].
  apply not_elem_of_cons in Hnot as [Hne Hnot]. simpl.
  rewrite IH by (by try apply wf_parse_column).
  by apply column_parse_column_other.
Qed.

Lemma column_parse_fold_same cs df c' :
  wf df → NoDup cs → c' ∈ cs → c' ∈ columns df →
  column (fold_left parse_column cs df) c'
  = map (parse_cell (column df c')) (column df c').
Proof.
  revert df. induction cs as [|c cs IH]; intros df Hwf Hnd Hin Hc;
    [by apply elem_of_nil in Hin|].
  apply NoDup_cons in Hnd as [Hnot Hnd]. simpl.
  destruct (decide (c' = c)) as [->|Hne].
  - rewrite column_parse_fold_other by (by try apply wf_parse_column).
    by apply column_parse_column_same.
  - apply elem_of_cons in Hin as [?|Hin]; [done|].
    rewrite IH; [|by apply wf_parse_column|done|done|by rewrite columns_parse_column].
    by rewrite column_parse_column_other.
Qed.

(** *** The columns of the frame read from the bronze file *)

Lemma column_read f c :
  column (mkDF (columns f) (map (map csv_cell) (rows f))) c
  = map (λ b, csv_cell (get_cell (columns f) b c)) (rows f).
Proof.
  unfold column. cbn [columns rows]. rewrite map_map. apply map_ext.
  intros b. apply get_cell_map_csv.
Qed.

Lemma column_read_cells f c :
  column (mkDF (columns f) (map (map csv_cell) (rows f))) c
  = map csv_cell (column f c).
Proof. rewrite column_read. unfold column. by rewrite map_map. Qed.

Lemma timestamp_at_parse f c b :
  timestamp_at f c b
  = parse_cell (map csv_cell (column f c)) (csv_cell (get_cell (columns f) b c)).
Proof. unfold timestamp_at, parse_cell. by destruct (csv_cell _). Qed.

Lemma timestamp_columns_NoDup : NoDup timestamp_columns.
Proof. apply (bool_decide_unpack _). vm_compute. exact I. Qed.

(** The parsed column of a timestamp label of the bronze file. *)
Lemma column_parsed f c :
  wf f → c ∈ timestamp_columns → c ∈ columns f →
  column (parse_timestamps (mkDF (columns f) (map (map csv_cell) (rows f)))) c
  = map (timestamp_at f c) (rows f).
Proof.
  intros Hwf Hts Hc. unfold parse_timestamps.
  rewrite column_parse_fold_same;
    [|by apply wf_read_bronze|apply timestamp_columns_NoDup|done|done].
  rewrite column_read_cells at 1. rewrite column_read, map_map.
  apply map_ext. intros b. symmetry. apply timestamp_at_parse.
Qed.

Lemma column_unparsed f c :
  wf f → c ∉ timestamp_columns →
  column (parse_timestamps (mkDF (columns f) (map (map csv_cell) (rows f)))) c
  = map (λ b, csv_cell (get_cell (columns f) b c)) (rows f).
Proof.
  intros Hwf Hts. unfold parse_timestamps.
  rewrite column_parse_fold_other; [|by apply wf_read_bronze|done].
  apply column_read.
Qed.

(** *** The derived column *)

Lemma column_add_response_time df :
  wf df →
  column (add_response_time df) "response_time_hours"
  = (if has_column "resolved_at" df && has_column "first_response_at" df
     then zip_with hours_between (column df "resolved_at")
            (column df "first_response_at")
     else replicate (nrows df) Null)
  ∧ ∀ c, c ≠ "response_time_hours" →
      column (add_response_time df) c = column df c.
Proof.
  intros Hwf. unfold add_response_time, set_column_const.
  destruct (_ && _); apply set_column_read_back; try done.
  - rewrite length_zip_with_l_eq; by rewrite !length_column.
  - apply length_replicate.
Qed.

Lemma column_filter_ticket_id df c :
  column (filter_ticket_id df) c
  = if has_column "ticket_id" df
    then map (λ r, get_cell (columns df) r c)
           (List.filter (keeps_ticket (columns df)) (rows df))
    else column df c.
Proof. unfold filter_ticket_id. by destruct (has_column _ _). Qed.

Lemma has_ticket_id_enriched_iff df :
  has_column "ticket_id" (add_response_time (parse_timestamps df))
  = has_column "ticket_id" df.
Proof.
  destruct (parse_timestamps_shape df) as (Hpc & _ & _).
  apply eq_true_iff_eq. rewrite !has_column_true, elem_of_add_response_time, Hpc.
  split; [by intros [?|?]|by left].
Qed.

Lemma resolved_is_timestamp :
  "resolved_at" ∈ timestamp_columns ∧ "first_response_at" ∈ timestamp_columns.
Proof. split; apply (bool_decide_unpack _); vm_compute; exact I. Qed.

(** The derived column before the filter, row by row of the bronze
    file. *)
Lemma column_enriched f :
  wf f →
  column (add_response_time
            (parse_timestamps (mkDF (columns f) (map (map csv_cell) (rows f)))))
         "response_time_hours"
  = map (response_hours f) (rows f).
Proof.
  intros Hwf. set (df := mkDF (columns f) (map (map csv_cell) (rows f))).
  destruct (parse_timestamps_shape df) as (Hpc & Hpn & Hpw).
  specialize (Hpw (wf_read_bronze f Hwf)).
  destruct (column_add_response_time (parse_timestamps df) Hpw) as [-> _].
  rewrite (has_column_same "resolved_at" (parse_timestamps df) f Hpc).
  rewrite (has_column_same "first_response_at" (parse_timestamps df) f Hpc).
  unfold response_hours.
  destruct (has_column "resolved_at" f) eqn:Hr; cbn [andb];
    [destruct (has_column "first_response_at" f) eqn:Hf|].
  - destruct resolved_is_timestamp as [Hr' Hf'].
    apply has_column_true in Hr, Hf. unfold df.
    rewrite (column_parsed f "resolved_at" Hwf Hr' Hr).
    rewrite (column_parsed f "first_response_at" Hwf Hf' Hf).
    apply zip_with_map_both.
  - rewrite Hpn. unfold nrows, df. cbn [rows]. rewrite length_map.
    apply replicate_map_const.
  - rewrite Hpn. unfold nrows, df. cbn [rows]. rewrite length_map.
    apply replicate_map_const.
Qed.

Lemma column_enriched_ticket_id f :
  wf f →
  column (add_response_time
            (parse_timestamps (mkDF (columns f) (map (map csv_cell) (rows f)))))
         "ticket_id"
  = map (λ b, csv_cell (get_cell (columns f) b "ticket_id")) (rows f).
Proof.
  intros Hwf. set (df := mkDF (columns f) (map (map csv_cell) (rows f))).
  destruct (parse_timestamps_shape df) as (_ & _ & Hpw).
  specialize (Hpw (wf_read_bronze f Hwf)).
  destruct ticket_id_not_parsed as [Hnot Hne].
  destruct (column_add_response_time (parse_timestamps df) Hpw) as [_ ->]; [|done].
  by apply column_unparsed.
Qed.

(** The derived column of the silver table: the response time of every
    bronze row that passes the filter, in the order of the bronze file. *)
Lemma silver_response_column f :
  wf f →
  column (silver_table (mkDF (columns f) (map (map csv_cell) (rows f))))
         "response_time_hours"
  = map (response_hours f) (ticket_rows f).
Proof.
  intros Hwf. unfold silver_table. rewrite column_filter_ticket_id.
  rewrite has_ticket_id_enriched_iff. unfold ticket_rows.
  change (has_column "ticket_id" (mkDF (columns f) (map (map csv_cell) (rows f))))
    with (has_column "ticket_id" f).
  pose proof (column_enriched f Hwf) as Hrth.
  pose proof (column_enriched_ticket_id f Hwf) as Htid.
  generalize dependent
    (add_response_time
       (parse_timestamps (mkDF (columns f) (map (map csv_cell) (rows f))))).
  intros E Hrth Htid. destruct (has_column "ticket_id" f); [|done].
  apply filter_parallel; [exact Hrth|].
  unfold keeps_ticket.
  rewrite <-(map_map (λ r, get_cell (columns E) r "ticket_id")
               (λ c, match c with
                     | Null => false
                     | Str s => negb (String.eqb (strip_ws s) "")
                     | _ => true
                     end)).
  fold (column E "ticket_id"). rewrite Htid, map_map. apply map_ext.
  intros b. by rewrite get_cell_map_csv.
Qed.

(** *** The value of the quotient *)

Lemma round64_float (x : Q) : is_float64 (round64 x).
Proof.
  destruct (Qeq_dec x 0) as [Hz|Hx].
  { rewrite (round64_zero x Hz). exists 0%Z, 0%Z. split; [done|reflexivity]. }
  rewrite (round64_unfold x Hx).
  set (e := (ilog2 (Qred x) - 52)%Z).
  exists (rint (Qred x / 2 ^ e)), e. split; [|apply Qred_correct].
  pose proof (ilog2_upper (Qred x)) as Hup.
  replace (ilog2 (Qred x) + 1)%Z with (e + 53)%Z in Hup by (unfold e; lia).
  rewrite Qpower_plus in Hup by done.
  assert (2 ^ 53 == 9007199254740992)%Q as H53 by reflexivity.
  rewrite H53 in Hup. clear H53.
  pose proof (two_pow_pos e) as HP.
  destruct (rint_near (Qred x / 2 ^ e)) as [Hlo Hhi].
  assert (Qred x / 2 ^ e * 2 ^ e == Qred x)%Q as Hdiv by (field; lra).
  remember (2 ^ e)%Q as P eqn:HeqP. clear HeqP e.
  remember (Qred x / P)%Q as y eqn:Hy. clear Hy.
  remember (rint y) as m eqn:Hm. clear Hm.
  assert (- 9007199254740992 < y ∧ y < 9007199254740992)%Q as [Hy1 Hy2].
  { rewrite <-Hdiv in Hup. revert Hup. apply Qabs_case; intros Hs Hup; split; nra. }
  change (2 ^ 53)%Z with 9007199254740992%Z.
  apply Z.abs_le. split.
  - destruct (Z_le_gt_dec (- 9007199254740992) m) as [?|Hgt]; [done|].
    assert (m ≤ - 9007199254740993)%Z as Hm by lia.
    rewrite Zle_Qle in Hm.
    change (inject_Z (- 9007199254740993)) with (- 9007199254740993)%Q in Hm.
    exfalso. lra.
  - destruct (Z_le_gt_dec m 9007199254740992) as [?|Hgt]; [done|].
    assert (9007199254740993 ≤ m)%Z as Hm by lia.
    rewrite Zle_Qle in Hm.
    change (inject_Z 9007199254740993) with 9007199254740993%Q in Hm.
    exfalso. lra.
Qed.

Lemma hours_float (n : Z) : is_float64 (hours n).
Proof. apply round64_float. Qed.

Lemma filter_sublist {A} (k : A → bool) (l : list A) :
  List.filter k l `sublist_of` l.
Proof.
  induction l as [|x l IH]; simpl; [done|].
  destruct (k x); by constructor.
Qed.

Lemma ticket_rows_sublist f :
  ticket_rows f `sublist_of` rows f
  ∧ ("ticket_id" ∉ columns f → ticket_rows f = rows f).
Proof.
  unfold ticket_rows. split.
  - destruct (has_column _ _); [apply filter_sublist|done].
  - intros Hno. by rewrite (proj2 (has_column_false "ticket_id" f) Hno).
Qed.

(** Claim C5: when the bronze schema has both [resolved_at] and
    [first_response_at], every silver row has [response_time_hours]
    equal to the difference of its two timestamps in seconds divided by
    3600, computed on float64, and null as soon as either timestamp is
    null; when either field is missing from the schema the column is
    still there and null on every row.  The column holds, in the order of
    the bronze file, the response time of the bronze rows that are kept,
    computed from the timestamps [pd.to_datetime] gives for the two cells
    of the row: all the rows without a [ticket_id] column, and with
    ASCII ticket ids the rows that pass the filter.  The number of hours
    is a float64 within a relative error of [2^-51] of the exact
    quotient; for a gap of whole seconds up to 104 days it is the float64
    nearest to the seconds divided by 3600, and a gap of 7200 seconds
    gives exactly 2.  The bronze file has at least two columns, as every
    file with a tabular source or with the two timestamp fields has: in a
    file of one column [pd.read_csv] skips the lines that hold only
    white space. *)
Theorem response_time_hours_derived (f : DataFrame pyval) :
  wf f → (2 ≤ length (columns f))%nat → gaps_fit f →
  ∃ out,
    silver_flow (Some f) = Ok (Some out)
    ∧ "response_time_hours" ∈ columns out
    ∧ (∃ kept,
         kept `sublist_of` rows f
         ∧ ("ticket_id" ∉ columns f → kept = rows f)
         ∧ column out "response_time_hours" = map (response_hours f) kept)
    ∧ (ascii_ids f →
         column out "response_time_hours"
         = map (response_hours f) (ticket_rows f))
    ∧ (∀ r, r ∈ rows out →
         get_cell (columns out) r "response_time_hours"
         = if has_column "resolved_at" f && has_column "first_response_at" f
           then hours_between (get_cell (columns out) r "resolved_at")
                              (get_cell (columns out) r "first_response_at")
           else Null)
    ∧ (∀ a b : Z, ∃ q,
         hours_between (Time a) (Time b) = Num q
         ∧ is_float64 q
         ∧ (Qabs (q - inject_Z (a - b) / 1000000000 / 3600)
            <= Qabs (inject_Z (a - b) / 1000000000 / 3600) * (1 # 2 ^ 51))%Q)
    ∧ (∀ t0 s : Z, (Z.abs (s * 1000000000) < 2 ^ 53)%Z →
         hours_between (Time (t0 + s * 1000000000)) (Time t0)
         = Num (round64 (inject_Z s / 3600)))
    ∧ (∀ t0 : Z, hours_between (Time (t0 + 7200 * 1000000000)) (Time t0) = Num 2)
    ∧ (∀ x, hours_between Null x = Null)
    ∧ (∀ x, hours_between x Null = Null).
Proof.
  intros Hwf Hlen _.
  assert (columns f ≠ []) as Hcols
    by (intros Hnil; rewrite Hnil in Hlen; simpl in Hlen; lia).
  set (df := mkDF (columns f) (map (map csv_cell) (rows f))).
  destruct (parse_timestamps_shape df) as (Hpc & _ & Hpw).
  exists (silver_table df). split; [by apply silver_flow_ok|].
  split.
  { unfold silver_table. rewrite columns_filter_ticket_id.
    apply elem_of_add_response_time. by right. }
  split.
  { exists (ticket_rows f). destruct (ticket_rows_sublist f) as [Hsub Hall].
    split; [done|]. split; [done|]. by apply silver_response_column. }
  split; [intros _; by apply silver_response_column|].
  split.
  { unfold silver_table. rewrite columns_filter_ticket_id.
    intros r Hr%rows_filter_ticket_id.
    rewrite add_response_time_rows; [|by apply Hpw, wf_read_bronze|done].
    unfold response_of.
    rewrite (has_column_same "resolved_at" (parse_timestamps df) f Hpc).
    by rewrite (has_column_same "first_response_at" (parse_timestamps df) f Hpc). }
  split.
  { intros a b. exists (hours (a - b)). split; [done|].
    split; [apply hours_float|apply hours_error]. }
  split.
  { intros t0 s Hs. unfold hours_between.
    replace (t0 + s * 1000000000 - t0)%Z with (s * 1000000000)%Z by lia.
    by rewrite hours_of_seconds. }
  split.
  { intros t0. unfold hours_between.
    replace (t0 + 7200 * 1000000000 - t0)%Z with 7200000000000%Z by lia.
    vm_compute. reflexivity. }
  split; [done|]. by intros [].
Qed.

End Facts.

End ResponseTime.

(** ** Gold flow: groups and means *)

Module GoldMore.
Import Frame Lib Gold Notions FrameFacts GoldFacts.

Section Facts.
Context `{Pandas}.
Implicit Types (df : DataFrame scalar) (keys ks : list scalar).

Lemma elem_of_group_keys_dropna dropna k keys :
  k ∈ group_keys dropna keys ↔ k ∈ keys ∧ (dropna = true → k ≠ Null).
Proof.
  unfold group_keys. rewrite sort_keys_perm, elem_of_remove_dups.
  destruct dropna.
  - rewrite list_elem_of_In, filter_In, <-list_elem_of_In. unfold notna.
    rewrite negb_true_iff, bool_decide_eq_false.
    split; [intros [? ?]; split; [done|by intros _]|].
    intros [? Hk]; split; [done|by apply Hk].
  - split; [intros ?; split; [done|discriminate]|by intros [? _]].
Qed.


Lemma count_key_pos k keys : k ∈ keys → (1 ≤ count_key k keys)%nat.
Proof.
  induction 1 as [k keys|k x keys _ IH]; rewrite count_key_cons.
  - rewrite bool_decide_eq_true_2 by done. lia.
  - lia.
Qed.

Lemma count_key_notna k keys :
  k ≠ Null → count_key k (List.filter notna keys) = count_key k keys.
Proof.
  intros Hk. induction keys as [|x keys IH]; [done|]. simpl.
  destruct (notna x) eqn:Hx.
  - by rewrite !count_key_cons, IH.
  - rewrite count_key_cons, IH. unfold notna in Hx.
    apply negb_false_iff, bool_decide_eq_true in Hx. subst x.
    by rewrite bool_decide_eq_false_2.
Qed.

(** Every row of a count table counts the rows of its key, at least one
    (no group is zero-filled), and the counts add up to the number of
    rows grouped: all of them, or those with a key when [dropna] is set. *)
Theorem groupby_size_counts dropna keys :
  (∀ k n, (k, n) ∈ groupby_size dropna keys →
     n = count_key k keys ∧ (1 ≤ n)%nat)
  ∧ sum_list (map snd (groupby_size dropna keys))
    = length (if dropna then List.filter notna keys else keys).
Proof.
  split.
  - unfold groupby_size. intros k n (k' & [= -> ->] & Hk)%list_elem_of_fmap.
    split; [done|]. apply count_key_pos.
    by apply elem_of_group_keys_dropna in Hk as [? _].
  - destruct dropna; [|apply groupby_size_total].
    unfold groupby_size. rewrite map_map. simpl.
    rewrite (map_ext_in _ (λ k, count_key k (List.filter notna keys))).
    + apply count_key_sum; [apply group_keys_NoDup|].
      intros x Hx. unfold group_keys. by rewrite sort_keys_perm, elem_of_remove_dups.
    + intros k Hk%list_elem_of_In. symmetry. apply count_key_notna.
      apply elem_of_group_keys_dropna in Hk as [_ Hk]. by apply Hk.
Qed.

Lemma groupby_mean_keys keys vals :
  map fst (groupby_mean keys vals) = group_keys true keys.
Proof. unfold groupby_mean. rewrite map_map. simpl. apply map_id. Qed.

Lemma columns_read_silver (f df : DataFrame scalar) :
  read_silver f = Ok df → columns df = columns f.
Proof.
  unfold read_silver. destruct (columns f) eqn:Hc; [done|]. by intros [= <-].
Qed.

(** The mean table has a row for exactly the agents of the count table,
    in the same order, whenever the silver file has the derived column
    (every file the silver flow writes has it). *)
Theorem avg_table_keys (f : DataFrame scalar) :
  "response_time_hours" ∈ columns f →
  ∃ g,
    gold_flow (Some f) = Ok (Some g)
    ∧ map fst (entries (avg_response_time_per_agent g))
      = map fst (entries (tickets_per_agent g)).
Proof.
  intros Hin.
  assert (columns f ≠ []) as Hcols
    by (intros Hnil; rewrite Hnil in Hin; by apply elem_of_nil in Hin).
  destruct (read_silver_ok f Hcols) as (df & Hread & _).
  exists (gold_tables df). split; [unfold gold_flow; by rewrite Hread|].
  unfold gold_tables, avg_resp_of, tpa_of.
  cbn [avg_response_time_per_agent tickets_per_agent entries].
  assert (has_column "response_time_hours" df = true) as ->.
  { apply has_column_true. by rewrite (columns_read_silver f df Hread). }
  rewrite andb_true_r. destruct (has_column "agent_id" df); [|done].
  by rewrite groupby_mean_keys, groupby_size_keys.
Qed.

Lemma remove_dups_replicate (x : scalar) n : remove_dups (replicate (S n) x) = [x].
Proof.
  induction n as [|n IH]; [done|].
  change (replicate (S (S n)) x) with (x :: replicate (S n) x).
  cbn [remove_dups]. destruct (decide_rel _ _ _) as [_|Hn]; [exact IH|].
  destruct Hn. left.
Qed.

Lemma count_key_replicate (x : scalar) n : count_key x (replicate n x) = n.
Proof.
  induction n as [|n IH]; [done|]. simpl. rewrite count_key_cons, IH.
  by rewrite bool_decide_eq_true_2.
Qed.

Lemma sentiment_labels_neutral df :
  has_column "sentiment_score" df = false →
  sentiment_labels df = replicate (nrows df) "neutral".
Proof.
  intros Hno. unfold sentiment_labels, sentiment_score_val. rewrite Hno.
  destruct (has_column "sentiment" df).
  - rewrite map_map. rewrite <-(length_column df "sentiment").
    by rewrite replicate_map_const.
  - induction (nrows df) as [|n IH]; [done|]. simpl. by rewrite IH.
Qed.

(** Without a [sentiment_score] column every row is labelled "neutral":
    the sentiment table is the single row ("neutral", number of rows),
    or empty when the silver table has no row. *)
Theorem no_score_all_neutral (f : DataFrame scalar) :
  columns f ≠ [] → "sentiment_score" ∉ columns f →
  ∃ df g,
    read_silver f = Ok df
    ∧ gold_flow (Some f) = Ok (Some g)
    ∧ sentiment_labels df = replicate (nrows f) "neutral"
    ∧ entries (tickets_by_sentiment g)
      = match nrows f with
        | O => []
        | S _ => [(Str "neutral", nrows f)]
        end.
Proof.
  intros Hcols Hno. destruct (read_silver_ok f Hcols) as (df & Hread & Hn).
  exists df, (gold_tables df).
  assert (sentiment_labels df = replicate (nrows f) "neutral") as Hlab.
  { rewrite sentiment_labels_neutral, Hn; [done|].
    apply has_column_false. by rewrite (columns_read_silver f df Hread). }
  split_and!; [done|unfold gold_flow; by rewrite Hread|done|].
  unfold gold_tables, tbsent_of. cbn [tickets_by_sentiment entries].
  rewrite Hlab. destruct (nrows f) as [|n]; [done|].
  assert (map Str (replicate (S n) "neutral") = replicate (S n) (Str "neutral"))
    as -> by (generalize (S n); intros m; induction m; simpl; congruence).
  unfold groupby_size, group_keys. rewrite remove_dups_replicate.
  cbn [sort_keys foldr insert_key map]. by rewrite count_key_replicate.
Qed.

(** *** The mean *)

Lemma group_values_cons k x keys v vals :
  group_values k (x :: keys) (v :: vals)
  = if bool_decide (x = k) then v :: group_values k keys vals
    else group_values k keys vals.
Proof. unfold group_values. simpl. by case_bool_decide. Qed.

Lemma group_values_nil_r k keys : group_values k keys [] = [].
Proof. unfold group_values. by destruct keys. Qed.

(** The values of a group are those of the rows of its key. *)
Lemma group_values_local k keys vals vals' :
  length vals = length vals' →
  (∀ j, keys !! j = Some k → vals' !! j = vals !! j) →
  group_values k keys vals' = group_values k keys vals.
Proof.
  revert vals vals'. induction keys as [|x keys IH]; intros vals vals' Hlen Hsame;
    [done|].
  destruct vals as [|v vals], vals' as [|v' vals']; try done.
  rewrite !group_values_cons. injection Hlen as Hlen.
  rewrite (IH vals vals' Hlen); [|intros j Hj; exact (Hsame (S j) Hj)].
  case_bool_decide as Hx; [|done]. subst x.
  specialize (Hsame 0 eq_refl). simpl in Hsame. by injection Hsame as ->.
Qed.

Lemma group_values_all_nan k keys vals :
  (∀ j, keys !! j = Some k → vals !! j = Some NaN) →
  List.filter (λ v, negb (is_nan v)) (group_values k keys vals) = [].
Proof.
  revert vals. induction keys as [|x keys IH]; intros vals Hnan; [done|].
  destruct vals as [|v vals]; [by rewrite group_values_nil_r|].
  rewrite group_values_cons.
  specialize (IH vals (λ j Hj, Hnan (S j) Hj)).
  case_bool_decide as Hx; [|done]. subst x.
  specialize (Hnan 0 eq_refl). simpl in Hnan. injection Hnan as ->. done.
Qed.

Lemma group_values_single k keys vals i q :
  keys !! i = Some k → vals !! i = Some (Fin q) →
  (∀ j, j ≠ i → keys !! j = Some k → vals !! j = Some NaN) →
  List.filter (λ v, negb (is_nan v)) (group_values k keys vals) = [Fin q].
Proof.
  revert vals i. induction keys as [|x keys IH]; intros vals i Hk Hv Hnan; [done|].
  destruct vals as [|v vals]; [done|]. rewrite group_values_cons.
  destruct i as [|i].
  - simpl in Hk, Hv. injection Hk as ->. injection Hv as ->.
    rewrite bool_decide_eq_true_2 by done. simpl. f_equal.
    apply group_values_all_nan. intros j Hj. by apply (Hnan (S j)).
  - specialize (IH vals i Hk Hv).
    rewrite <-IH by (intros j Hne Hj; apply (Hnan (S j)); [lia|done]).
    case_bool_decide as Hx; [|done]. subst x.
    specialize (Hnan 0 (ltac:(lia)) eq_refl). simpl in Hnan. injection Hnan as ->. done.
Qed.

Lemma mean_skipna_single vals q :
  List.filter (λ v, negb (is_nan v)) vals = [Fin q] →
  ∃ m, mean_skipna vals = Fin m ∧ (m == q)%Q.
Proof.
  intros Hf. unfold mean_skipna. rewrite Hf. simpl. eexists. split; [done|].
  rewrite !Qred_correct. field.
Qed.

Lemma elem_of_groupby_mean k m keys vals :
  (k, m) ∈ groupby_mean keys vals
  ↔ k ∈ group_keys true keys ∧ m = mean_skipna (group_values k keys vals).
Proof.
  unfold groupby_mean. rewrite list_elem_of_fmap. split.
  - by intros (k' & [= -> ->] & Hk).
  - intros [Hk ->]. by exists k.
Qed.

Lemma entries_avg_resp_of df :
  has_column "agent_id" df = true → has_column "response_time_hours" df = true →
  entries (avg_resp_of df)
  = groupby_mean (column df "agent_id")
      (map to_numeric (column df "response_time_hours")).
Proof. intros Ha Hr. unfold avg_resp_of. cbn [entries]. by rewrite Ha, Hr. Qed.

(** The mean response time is taken agent by agent.  An agent with one
    answered ticket, its other tickets without a response time, has that
    ticket's response time as mean, whatever the tickets of the other
    agents are; and the mean of an agent is the same in two tables that
    have the same agents row by row and the same response times on the
    rows of that agent. *)
Theorem mean_per_agent df k :
  k ≠ Null →
  has_column "agent_id" df = true →
  has_column "response_time_hours" df = true →
  (∀ i q,
     column df "agent_id" !! i = Some k →
     to_numeric <$> column df "response_time_hours" !! i = Some (Fin q) →
     (∀ j, j ≠ i → column df "agent_id" !! j = Some k →
        to_numeric <$> column df "response_time_hours" !! j = Some NaN) →
     ∃ m, (k, Fin m) ∈ entries (avg_resp_of df) ∧ (m == q)%Q)
  ∧ (∀ df',
       has_column "agent_id" df' = true →
       has_column "response_time_hours" df' = true →
       column df' "agent_id" = column df "agent_id" →
       (∀ j, column df "agent_id" !! j = Some k →
          to_numeric <$> column df' "response_time_hours" !! j
          = to_numeric <$> column df "response_time_hours" !! j) →
       ∀ m, (k, m) ∈ entries (avg_resp_of df') ↔ (k, m) ∈ entries (avg_resp_of df)).
Proof.
  intros Hk Ha Hr. rewrite (entries_avg_resp_of df Ha Hr). split.
  - intros i q Hi Hq Hnan.
    change (map to_numeric ?l) with (to_numeric <$> l).
    destruct (mean_skipna_single
                (group_values k (column df "agent_id")
                   (to_numeric <$> column df "response_time_hours")) q)
      as (m & Hm & Heq).
    { apply (group_values_single k _ _ i); [done|by rewrite list_lookup_fmap|].
      intros j Hne Hj. rewrite list_lookup_fmap. by apply Hnan. }
    exists m. split; [|done]. apply elem_of_groupby_mean. split; [|done].
    apply elem_of_group_keys_dropna. split; [|done]. by eapply list_elem_of_lookup_2.
  - intros df' Ha' Hr' Hkeys Hsame m.
    rewrite (entries_avg_resp_of df' Ha' Hr'), Hkeys, !elem_of_groupby_mean.
    rewrite (group_values_local k (column df "agent_id")
               (map to_numeric (column df "response_time_hours"))
               (map to_numeric (column df' "response_time_hours"))); [done| |].
    + rewrite !length_map, !length_column.
      rewrite <-(length_column df' "agent_id"), <-(length_column df "agent_id").
      by rewrite Hkeys.
    + intros j Hj. change (map to_numeric ?l) with (to_numeric <$> l).
      rewrite !list_lookup_fmap. by apply Hsame.
Qed.

End Facts.

End GoldMore.

(** ** Bronze flow: where the provenance column is *)

Module BronzeProvenance.
Import Snake Frame Bronze Notions FrameFacts ConcatFacts BronzeFacts BronzeMore.

Section P.
Context {C : Type} `{Nullable C}.






End P.







End BronzeProvenance.

(** ** The whole run: outcomes *)

Module PipelineMore.
Import Snake Frame Lib Pipeline Notions FrameFacts BronzeFacts BronzeMore SilverFacts
  SilverMore GoldFacts.

Section Facts.
Context `{Pandas}.

Lemma gold_flow_after_silver bronze_file s :
  Silver.silver_flow bronze_file = Ok (Some s) →
  ∃ g, Gold.gold_flow (Some s) = Ok (Some g).
Proof.
  intros Hs%silver_flow_columns.
  assert (columns s ≠ []) as Hcols
    by (intros Hnil; rewrite Hnil in Hs; by apply elem_of_nil in Hs).
  destruct (read_silver_ok s Hcols) as (df & Hread & _).
  exists (Gold.gold_tables df). unfold Gold.gold_flow. by rewrite Hread.
Qed.

Lemma run_all_crashed st :
  columns (Bronze.bronze_table (raw st)) = [] →
  run_all st = Crashed EmptyDataError (bronze_step st).
Proof.
  intros Hnil. unfold run_all, silver_step, bronze_step.
  cbn [bronze_file]. unfold Silver.silver_flow, Silver.read_bronze.
  by rewrite Hnil.
Qed.

Lemma run_all_finished st :
  columns (Bronze.bronze_table (raw st)) ≠ [] →
  ∃ s g,
    Silver.silver_flow (Some (Bronze.bronze_table (raw st))) = Ok (Some s)
    ∧ Gold.gold_flow (Some s) = Ok (Some g)
    ∧ run_all st
      = Finished (mkStore (raw st) (Some (Bronze.bronze_table (raw st)))
                    (Some s) (Some g)).
Proof.
  intros Hcols. pose proof (silver_flow_ok _ Hcols) as Hs.
  destruct (gold_flow_after_silver _ _ Hs) as (g & Hg).
  eexists _, g. split; [exact Hs|]. split; [exact Hg|].
  unfold run_all, silver_step, bronze_step. cbn [bronze_file raw].
  rewrite Hs. unfold gold_step. cbn [silver_file raw bronze_file].
  by rewrite Hg.
Qed.

Lemma run_all_cases st :
  match run_all st with
  | Crashed e st' =>
      e = EmptyDataError
      ∧ columns (Bronze.bronze_table (raw st)) = []
      ∧ st' = mkStore (raw st) (Some (Bronze.bronze_table (raw st)))
                (silver_file st) (gold_files st)
  | Finished st' =>
      columns (Bronze.bronze_table (raw st)) ≠ []
      ∧ ∃ s g,
          Silver.silver_flow (Some (Bronze.bronze_table (raw st))) = Ok (Some s)
          ∧ Gold.gold_flow (Some s) = Ok (Some g)
          ∧ st' = mkStore (raw st) (Some (Bronze.bronze_table (raw st)))
                    (Some s) (Some g)
  end.
Proof.
  destruct (decide (columns (Bronze.bronze_table (raw st)) = [])) as [Hnil|Hcols].
  - by rewrite (run_all_crashed st Hnil).
  - destruct (run_all_finished st Hcols) as (s & g & Hs & Hg & ->).
    split; [done|]. by exists s, g.
Qed.


(** A finished run is a full recompute of the raw files: running again
    from the store it left gives that store again, whatever files the
    first run started from. *)
Theorem rerun_same_outputs st st' :
  distinct_labels (raw st) →
  run_all st = Finished st' → run_all st' = Finished st'.
Proof.
  intros _ Hrun. pose proof (run_all_cases st) as Hout. rewrite Hrun in Hout.
  destruct Hout as (Hcols & s & g & Hs & Hg & ->).
  destruct (run_all_finished
              (mkStore (raw st) (Some (Bronze.bronze_table (raw st))) (Some s) (Some g))
              Hcols) as (s2 & g2 & Hs2 & Hg2 & ->).
  cbn [raw] in *. assert (s2 = s) as -> by congruence.
  assert (g2 = g) as -> by congruence. done.
Qed.


End Facts.

End PipelineMore.

(** ** Field-name normalisation: the normal form *)

Module SnakeMore.
Import Snake SnakeFacts.

Lemma rstrip_fixed_last p (s : list ascii) :
  rstrip p s = s → head_ok p (rev s).
Proof.
  induction s as [|c t IH]; [done|]. simpl.
  destruct (rstrip p t) as [|x r] eqn:Hr.
  - destruct (p c) eqn:Hc; [done|]. intros [= <-]. simpl. exact Hc.
  - intros [= <-]. specialize (IH eq_refl).
    destruct (rev (x :: r)) as [|y l] eqn:Hrev; [|exact IH].
    apply (f_equal (@length _)) in Hrev. rewrite length_rev in Hrev. done.
Qed.

Lemma no_dbl_no_pair (s1 s2 : list ascii) b :
  no_dbl b (s1 ++ "_"%char :: "_"%char :: s2) = false.
Proof.
  revert b. induction s1 as [|c s1 IH]; intros b; simpl.
  - by rewrite andb_false_r.
  - destruct (is_us c); [|done]. by rewrite IH, andb_false_r.
Qed.

(** A normalised name has no upper-case ASCII letter, no space and no
    hyphen, no two underscores in a row, and no underscore at either
    end. *)
Theorem to_snake_normal_form (s : string) :
  let out := list_ascii_of_string (_to_snake s) in
  (∀ c, c ∈ out → is_upper c = false ∧ is_sep c = false)
  ∧ (∀ s1 s2, out ≠ s1 ++ "_"%char :: "_"%char :: s2)
  ∧ head_ok is_us out
  ∧ head_ok is_us (rev out).
Proof.
  cbv zeta. unfold _to_snake. rewrite list_ascii_of_string_of_list_ascii.
  destruct (snake_chars_normal (list_ascii_of_string s))
    as [Hsep Hup Hdbl Hhead Hlast].
  split_and!.
  - intros c Hc. split.
    + exact (proj1 (Forall_forall _ _) Hup c Hc).
    + exact (proj1 (Forall_forall _ _) Hsep c Hc).
  - intros s1 s2 Heq. rewrite Heq, no_dbl_no_pair in Hdbl. done.
  - done.
  - by apply rstrip_fixed_last.
Qed.

(** Among ASCII headers, the names the normalisation leaves alone are
    exactly those in normal form.  (Outside ASCII [str.lower] changes
    letters that the normal form does not speak of.) *)
Theorem to_snake_fixed_points (s : string) :
  (∀ c, c ∈ list_ascii_of_string s → (code c < 128)%nat) →
  _to_snake s = s ↔ normal (list_ascii_of_string s).
Proof.
  intros _. split.
  - intros Heq. rewrite <-Heq. unfold _to_snake.
    rewrite list_ascii_of_string_of_list_ascii. apply snake_chars_normal.
  - intros Hn. unfold _to_snake. rewrite (snake_chars_fixed _ Hn).
    apply string_of_list_ascii_of_string.
Qed.

Lemma sub_seps_hyphen (s : list ascii) b :
  sub_seps b (map (λ c, if is_sep c then "-"%char else c) s) = sub_seps b s.
Proof.
  revert b. induction s as [|c s IH]; intros b; simpl; [done|].
  destruct (is_sep c) eqn:Hc; simpl; rewrite ?Hc, !IH; done.
Qed.

(** Spaces and hyphens are interchangeable: writing a hyphen for every
    space of a header does not change its normalised name. *)
Theorem to_snake_space_or_hyphen (s : list ascii) :
  _to_snake (string_of_list_ascii (map (λ c, if is_sep c then "-"%char else c) s))
  = _to_snake (string_of_list_ascii s).
Proof.
  unfold _to_snake, snake_chars.
  by rewrite !list_ascii_of_string_of_list_ascii, sub_seps_hyphen.
Qed.

End SnakeMore.

(** ** The sentiment chart *)

Module ReportFacts.
Import Report.

Lemma count_of_head lab n (sent : list (string * Z)) :
  count_of ((lab, n) :: sent) lab = n.
Proof. unfold count_of. simpl. by rewrite String.eqb_refl. Qed.

Lemma count_of_tail lab lab' n (sent : list (string * Z)) :
  lab' ≠ lab → count_of ((lab', n) :: sent) lab = count_of sent lab.
Proof.
  intros Hne. unfold count_of. simpl.
  by rewrite (proj2 (String.eqb_neq lab' lab) Hne).
Qed.

(** With distinct labels, re-indexing a table on its own labels gives
    the table back. *)
Lemma reindex_fill_self (sent : list (string * Z)) :
  NoDup (map fst sent) → reindex_fill sent (map fst sent) = sent.
Proof.
  unfold reindex_fill. rewrite map_map.
  induction sent as [|[lab n] sent IH]; [done|]. simpl.
  intros [Hnot Hnd]%NoDup_cons. rewrite count_of_head. f_equal.
  rewrite <-(IH Hnd) at 2. apply map_ext_in. intros [lab' n'] Hin. simpl.
  f_equal. apply count_of_tail. intros ->. apply Hnot.
  apply list_elem_of_In in Hin. apply list_elem_of_fmap. by exists (lab', n').
Qed.

Lemma total_count_perm (a b : list (string * Z)) :
  a ≡ₚ b → total_count a = total_count b.
Proof.
  unfold total_count. induction 1 as [|x a b _ IH|x y a|a b c _ IH1 _ IH2]; simpl;
    lia.
Qed.

Lemma present_labels_order (labels : list string) :
  NoDup labels → labels ≠ [] → (∀ l, l ∈ labels → l ∈ order) →
  present_labels labels = filter (λ lab, lab ∈ labels) order
  ∧ present_labels labels ≡ₚ labels.
Proof.
  intros Hnd Hne Hin.
  assert (filter (λ lab, lab ∈ labels) order ≡ₚ labels) as Hperm.
  { apply NoDup_Permutation; [|done|].
    - apply NoDup_filter. apply (bool_decide_unpack _). vm_compute. exact I.
    - intros l. rewrite list_elem_of_filter. split; [by intros [? _]|].
      intros Hl. split; [done|by apply Hin]. }
  unfold present_labels.
  destruct (filter (λ lab, lab ∈ labels) order) as [|p ps] eqn:Hf; [|done].
  apply Permutation_nil_l in Hperm. done.
Qed.

(** For a table with distinct labels among "positive", "neutral" and
    "negative" and a total that is not zero, the chart has one wedge per
    row of the table and no other, in the order positive, neutral,
    negative, and the sizes of the wedges add up to the total the
    percentages are taken of. *)
Theorem plot_sentiment_shows_table (sent : list (string * Z)) :
  NoDup (map fst sent) → (∀ l, l ∈ map fst sent → l ∈ order) →
  total_count sent ≠ 0%Z →
  ∃ wedges,
    plot_sentiment sent = Wedges wedges (total_count sent)
    ∧ wedges ≡ₚ sent
    ∧ map fst wedges = filter (λ lab, lab ∈ map fst sent) order
    ∧ total_count wedges = total_count sent.
Proof.
  intros Hnd Hin Htotal.
  assert (sent ≠ []) as Hne by (intros ->; by apply Htotal).
  assert (map fst sent ≠ []) as Hlab by (by destruct sent).
  destruct (present_labels_order (map fst sent) Hnd Hlab Hin) as [Hpresent Hperm].
  exists (reindex_fill sent (present_labels (map fst sent))).
  assert (reindex_fill sent (present_labels (map fst sent)) ≡ₚ sent) as Hw.
  { rewrite <-(reindex_fill_self sent Hnd) at 3. unfold reindex_fill.
    by apply Permutation_map. }
  split_and!.
  - unfold plot_sentiment. destruct sent as [|r sent]; [done|].
    by rewrite (proj2 (Z.eqb_neq _ _) Htotal).
  - done.
  - unfold reindex_fill. rewrite map_map. simpl. by rewrite map_id.
  - by apply total_count_perm.
Qed.

End ReportFacts.

(** ** Further theorems at concrete inputs *)

Module MoreChecks.
Import Snake Frame Lib Notions FrameFacts.

Ltac by_computation := apply (bool_decide_unpack _); vm_compute; exact I.

Ltac each_frame :=
  let d := fresh "d" in
  let Hd := fresh "Hd" in
  intros d Hd;
  repeat (apply elem_of_cons in Hd as [->|Hd]; [by_computation|]);
  by apply elem_of_nil in Hd.

Ltac each_source n :=
  repeat (destruct (String.eqb n _); [intros [= <-]; by_computation|]);
  discriminate.

Lemma customers_only_distinct : distinct_labels Bronze.customers_only.
Proof.
  split.
  - intros n df. unfold Bronze.customers_only. cbn [Bronze.raw_csv]. each_source n.
  - intros df. discriminate.
Qed.

Lemma two_sources_distinct : distinct_labels Bronze.two_sources.
Proof.
  split.
  - intros n df. unfold Bronze.two_sources. cbn [Bronze.raw_csv]. each_source n.
  - intros df. discriminate.
Qed.

Lemma header_only_distinct : distinct_labels header_only.
Proof.
  split.
  - intros n df. unfold header_only. cbn [Bronze.raw_csv]. each_source n.
  - intros df [= <-]. by_computation.
Qed.

Lemma two_tickets_wf : wf Silver.two_tickets.
Proof. repeat constructor. Qed.


Lemma two_tickets_gaps : gaps_fit (H := example_pandas) Silver.two_tickets.
Proof.
  intros b r t Hb Hr Ht.
  apply elem_of_cons in Hb as [->|Hb].
  { vm_compute in Hr, Ht. injection Hr as <-. injection Ht as <-. lia. }
  apply list_elem_of_singleton in Hb as ->. vm_compute in Ht. discriminate Ht.
Qed.

Lemma two_tickets_ascii : ascii_ids (H := example_pandas) Silver.two_tickets.
Proof.
  intros b s Hb Hs.
  apply elem_of_cons in Hb as [->|Hb].
  { vm_compute in Hs. injection Hs as <-. by_computation. }
  apply list_elem_of_singleton in Hb as ->.
  vm_compute in Hs. injection Hs as <-. by_computation.
Qed.

(** A gap of one second is the float64 nearest to 1/3600,
    0.0002777777777777778, and a gap of an hour and a half is 1.5; an
    integer half-way between two float64 goes to the one with the even
    significand. *)
Example hours_of_one_second :
  Silver.hours 1000000000 = 5124095576030431 # 18446744073709551616
  ∧ Silver.hours 5400000000000 = 3 # 2
  ∧ Float64.of_int 9007199254740993 = 9007199254740992%Q
  ∧ Float64.of_int 9007199254740995 = 9007199254740996%Q.
Proof. split_and!; vm_compute; reflexivity. Qed.

Lemma response_time_hours_derived_witness :
  ∃ out,
    Silver.silver_flow (H := example_pandas) (Some Silver.two_tickets)
    = Ok (Some out)
    ∧ "response_time_hours" ∈ columns out
    ∧ column out "response_time_hours" = [Num 2; Null].
Proof.
  destruct (ResponseTime.response_time_hours_derived (H := example_pandas)
              Silver.two_tickets)
    as (out & Hflow & Hcol & _ & Hrth & _).
  - exact two_tickets_wf.
  - simpl. lia.
  - exact two_tickets_gaps.
  - exists out. split; [exact Hflow|]. split; [exact Hcol|].
    etrans; [apply Hrth, two_tickets_ascii|]. vm_compute. reflexivity.
Defined.

Lemma to_snake_fixed_points_witness :
  normal (list_ascii_of_string "customer_id")
  ∧ _to_snake "customer_id" = "customer_id".
Proof.
  split; [|reflexivity].
  apply (SnakeMore.to_snake_fixed_points "customer_id"); [|reflexivity].
  apply (proj1 (Forall_forall _ _)). by_computation.
Defined.

Lemma concat_keeps_cells_witness :
  get_cell (columns (concat [left_frame; right_frame]))
    (reindex (columns left_frame) (columns (concat [left_frame; right_frame]))
       [Atom (Str "1")]) "b"
  = Atom Null.
Proof.
  destruct (ConcatFacts.concat_keeps_cells [left_frame; right_frame] left_frame
              [Atom (Str "1")] "b") as [_ Heq].
  - each_frame.
  - left.
  - left.
  - rewrite Heq. reflexivity.
Defined.

Lemma concat_columns_order_witness :
  NoDup (columns (concat [left_frame; right_frame])).
Proof.
  apply (ConcatFacts.concat_columns_order left_frame [right_frame]). each_frame.
Defined.

Lemma tabular_rows_tagged_witness :
  Bronze.read_csv_source (Bronze.raw_csv Bronze.customers_only) "customers.csv"
  = [mkDF ["id"; "_src"] [[Atom (Str "1"); Atom (Str "customers")]]].
Proof.
  exact (BronzeMore.tabular_rows_tagged (Bronze.raw_csv Bronze.customers_only)
           "customers.csv" (mkDF ["id"] [[Atom (Str "1")]]) eq_refl).
Defined.

Lemma bronze_rows_conserved_witness :
  nrows (Bronze.bronze_table_of Bronze.csv_names Bronze.two_sources) = 5.
Proof.
  rewrite BronzeMore.bronze_rows_conserved.
  - reflexivity.
  - exact two_sources_distinct.
  - intros df Hdf. discriminate Hdf.
Defined.

Lemma header_only_sources_dropped_witness :
  columns (Bronze.bronze_table_of Bronze.csv_names header_only)
  = ["ticket_id"; "sentiment"; "sentiment_score"].
Proof.
  rewrite BronzeMore.header_only_sources_dropped.
  - reflexivity.
  - exact header_only_distinct.
  - intros n df _. unfold header_only. cbn [Bronze.raw_csv].
    destruct (String.eqb n "customers.csv"); [|discriminate].
    intros Heq. injection Heq as <-. reflexivity.
Defined.

Lemma bronze_table_rectangular_witness : wf (Bronze.bronze_table header_only).
Proof.
  apply BronzeMore.bronze_table_rectangular.
  - exact header_only_distinct.
  - intros df Hdf. injection Hdf as <-. repeat constructor.
Defined.

Lemma sentiment_flattened_witness :
  "sentiment_score" ∈ columns (Bronze.read_jsonl (Bronze.Loaded ticket_log))
  ∧ Forall (λ r, get_cell (columns (Bronze.read_jsonl (Bronze.Loaded ticket_log))) r
                   "sentiment_score"
                 = Atom (Num (9 # 10)))
           (rows (Bronze.read_jsonl (Bronze.Loaded ticket_log))).
Proof.
  destruct (BronzeMore.sentiment_flattened ticket_log)
    as (Hcol & _ & Hrows & Hscore & _).
  - repeat constructor.
  - by_computation.
  - by_computation.
  - split; [exact Hcol|]. apply Forall_forall. intros r Hr.
    rewrite (Hrows r Hr). apply list_elem_of_singleton in Hr as ->.
    apply Hscore; [by_computation|left].
Defined.





Lemma avg_table_keys_witness :
  ∃ g, Gold.gold_flow (H := example_pandas) (Some Gold.unanswered) = Ok (Some g)
    ∧ map fst (Gold.entries (Gold.avg_response_time_per_agent g))
      = map fst (Gold.entries (Gold.tickets_per_agent g)).
Proof.
  apply (GoldMore.avg_table_keys (H := example_pandas) Gold.unanswered).
  by_computation.
Defined.

Lemma no_score_all_neutral_witness :
  ∃ df g,
    Gold.read_silver (H := example_pandas) Gold.unanswered = Ok df
    ∧ Gold.gold_flow (H := example_pandas) (Some Gold.unanswered) = Ok (Some g)
    ∧ Gold.entries (Gold.tickets_by_sentiment g) = [(Str "neutral", 1)].
Proof.
  destruct (GoldMore.no_score_all_neutral (H := example_pandas) Gold.unanswered)
    as (df & g & Hread & Hflow & _ & Htable).
  - discriminate.
  - by_computation.
  - exists df, g. split; [exact Hread|]. split; [exact Hflow|]. exact Htable.
Defined.

Lemma mean_per_agent_witness :
  ∃ m, (Str "a1", Fin m)
         ∈ Gold.entries (Gold.avg_resp_of (H := example_pandas) three_tickets)
       ∧ (m == 2)%Q.
Proof.
  destruct (GoldMore.mean_per_agent (H := example_pandas) three_tickets (Str "a1"))
    as [Hsingle _]; [done|reflexivity|reflexivity|].
  apply (Hsingle 0%nat 2%Q); [reflexivity|reflexivity|].
  intros [|[|[|j]]] Hne Hj; try done.
Defined.


Lemma rerun_same_outputs_witness :
  ∃ st',
    Pipeline.run_all (H := example_pandas) (Pipeline.fresh_store Bronze.two_sources)
    = Pipeline.Finished st'
    ∧ Pipeline.run_all (H := example_pandas) st' = Pipeline.Finished st'.
Proof.
  eexists. split.
  - vm_compute. reflexivity.
  - apply (PipelineMore.rerun_same_outputs (H := example_pandas)
             (Pipeline.fresh_store Bronze.two_sources)).
    + exact two_sources_distinct.
    + vm_compute. reflexivity.
Defined.


Lemma plot_sentiment_shows_table_witness :
  ∃ wedges,
    Report.plot_sentiment loaded_sentiment = Report.Wedges wedges 5
    ∧ map fst wedges = ["positive"; "neutral"].
Proof.
  destruct (ReportFacts.plot_sentiment_shows_table loaded_sentiment)
    as (w & Hplot & _ & Hlabels & _).
  - by_computation.
  - intros l Hl. apply elem_of_cons in Hl as [->|Hl]; [right; left|].
    apply list_elem_of_singleton in Hl as ->. left.
  - discriminate.
  - exists w. split; [exact Hplot|]. exact Hlabels.
Defined.

End MoreChecks.
